(** * Grid simulator: the grid calculation and the template store

    A shallow embedding of [grid_simulator_app.py].

    The program computes with numpy float64 arrays and Python floats.  Its
    code is translated once, over an interface [Float64] of the float
    operations it uses, and the interface is instantiated twice:

    - [Exact.xq]: exact rationals extended with the IEEE special values
      (+inf, -inf, nan).  Rounding error of binary64 is abstracted away,
      special values are kept, so that division by zero, which numpy
      answers with inf or nan and not with an exception, stays visible.
      The universally quantified properties are proved on this instance.
    - [Binary64.float]: IEEE binary64 itself (primitive floats), used to
      evaluate the program bit for bit on concrete inputs.

    Python scalar division ([float / int]) raises [ZeroDivisionError] on a
    zero divisor and a missing dictionary key raises [KeyError]; both are
    kept through the result type [py]. *)

From Stdlib Require Import ZArith QArith Qround Qfield Lia Lqa List.
From Stdlib Require Import Floats.
From stdpp Require Import gmap strings list fin_maps.

#[local] Open Scope Z_scope.

(** ** Python results: a value or a raised exception *)

Inductive exn : Set := ZeroDivisionError | KeyError (key : string).

Inductive py (A : Type) : Type :=
| Ok (a : A)
| Raise (e : exn).
Arguments Ok {A} a.
Arguments Raise {A} e.

Definition py_bind {A B : Type} (m : py A) (k : A -> py B) : py B :=
  match m with
  | Ok a => k a
  | Raise e => Raise e
  end.

Notation "x <<- m ;; k" := (py_bind m (fun x => k))
  (at level 100, m at next level, right associativity).

(** ** The float64 operations the program uses *)

Class Float64 (F : Type) : Type := {
  of_int : Z -> F;             (* int -> float64 conversion *)
  fadd : F -> F -> F;
  fsub : F -> F -> F;
  fmul : F -> F -> F;
  fdiv : F -> F -> F;          (* IEEE division: x / 0 is inf or nan *)
  fneg : F -> F;
  rint : F -> F;               (* np.rint: nearest integer, ties to even *)
  floor_divide : F -> F -> F;  (* np.floor_divide *)
  feqb : F -> F -> bool;       (* == *)
  fleb : F -> F -> bool;       (* <= *)
}.

Section Numpy.
Context {F : Type} `{Float64 F}.

(** [a / b] on a Python float and a Python int. *)
Definition py_truediv (a : F) (b : Z) : py F :=
  if b =? 0 then Raise ZeroDivisionError else Ok (fdiv a (of_int b)).

(** [np.arange(lo, hi)] *)
Definition arange (lo hi : Z) : list Z :=
  map (fun k : nat => lo + Z.of_nat k) (seq 0 (Z.to_nat (hi - lo))).

(** numpy's [power_of_ten]: exact table values up to 1e8, then repeated
    multiplication by 10; the products below 1e22 are exact, so the table
    and the repeated product agree. *)
Definition power_of_ten (n : Z) : F :=
  Nat.iter (Z.to_nat n) (fun r => fmul r (of_int 10)) (of_int 1).

(** [np.round(a, decimals)] on a float: multiply by 10**decimals, rint,
    divide (for negative [decimals]: divide, rint, multiply). *)
Definition np_round (a : F) (decimals : Z) : F :=
  if decimals =? 0 then rint a
  else if 0 <? decimals
       then fdiv (rint (fmul a (power_of_ten decimals))) (power_of_ten decimals)
       else fmul (rint (fdiv a (power_of_ten (- decimals)))) (power_of_ten (- decimals)).

(** [a.cumsum()]: sequential running sum. *)
Fixpoint cumsum_from (acc : F) (l : list F) : list F :=
  match l with
  | [] => []
  | x :: l' => let s := fadd acc x in s :: cumsum_from s l'
  end.

Definition cumsum (l : list F) : list F :=
  match l with
  | [] => []
  | x :: l' => x :: cumsum_from x l'
  end.

(** Elementwise operation on two arrays of the same length. *)
Fixpoint zip_with_arr (f : F -> F -> F) (a b : list F) : list F :=
  match a, b with
  | x :: a', y :: b' => f x y :: zip_with_arr f a' b'
  | _, _ => []
  end.

(** [np.zeros_like(a)] *)
Definition zeros_like (a : list F) : list F := map (fun _ => of_int 0) a.

(** [a[i]] for an index within the array.  The loop below reads and
    writes only indices [0 <= i - 1 < i < levels = len(a)], so no
    [IndexError] and no wrap-around of a negative index can occur. *)
Definition at_index (a : list F) (i : Z) : F := nth (Z.to_nat i) a (of_int 0).

(** Body of the drawdown loop:
    [draw[i] = draw[i-1] + (prices[i-1] - prices[i]) * acc_qty[i-1]]. *)
Definition draw_step (prices acc_qty draw : list F) (i : Z) : list F :=
  <[ Z.to_nat i := fadd (at_index draw (i - 1))
                        (fmul (fsub (at_index prices (i - 1)) (at_index prices i))
                              (at_index acc_qty (i - 1))) ]> draw.

(** [for i in range(1, levels): ...] *)
Definition draw_loop (prices acc_qty : list F) (levels : Z) : list F :=
  fold_left (draw_step prices acc_qty) (arange 1 levels) (zeros_like prices).

(** The pandas DataFrame returned by [build_grid], by column. *)
Record DataFrame : Type := {
  Level : list Z;
  Price : list F;
  Qty : list F;
  Acc_Qty : list F;
  Avg_Price : list F;
  Unrealised : list F;
  Drawdown : list F;
  PnL : list F;
  Margin_per_lvl : list F;
  Acc_Margin : list F;
  Nominal : list F;
}.

Definition grid_prices (max_px : F) (levels : Z) (raw_gap : F) (price_dp : Z)
  : list F :=
  let raw_prices := map (fun i => fsub max_px (fmul (of_int i) raw_gap)) (arange 0 levels) in
  map (fun x => np_round x price_dp) raw_prices.

Definition grid_qty (usdt_slice : F) (prices : list F) : list F :=
  let qty := map (fun p => fmul (floor_divide (fdiv usdt_slice p) (of_int 10)) (of_int 10))
                 prices in
  map (fun q => if feqb q (of_int 0) then of_int 10 else q) qty.

Definition build_grid (min_px max_px start_px : F) (levels : Z) (usdt_slice : F)
    (leverage price_dp : Z) : py (DataFrame * F) :=
  let intervals := levels - 1 in
  raw_gap <<- py_truediv (fsub max_px min_px) intervals ;;
  let prices := grid_prices max_px levels raw_gap price_dp in
  let qty := grid_qty usdt_slice prices in
  let acc_qty := cumsum qty in
  let vwap := zip_with_arr (fun s a => np_round (fdiv s a) price_dp)
                           (cumsum (zip_with_arr fmul qty prices)) acc_qty in
  let unreal := zip_with_arr (fun p a => np_round (fmul (fsub p start_px) a) 2)
                             prices acc_qty in
  let draw := draw_loop prices acc_qty levels in
  let draw := map (fun d => fneg (np_round d 2)) draw in
  m_slice0 <<- py_truediv usdt_slice leverage ;;
  let m_slice := np_round m_slice0 2 in
  let acc_margin := map (fun k => np_round (fmul m_slice (of_int k)) 2)
                        (arange 1 (levels + 1)) in
  let notional := map (fun k => np_round (fmul usdt_slice (of_int k)) 2)
                      (arange 1 (levels + 1)) in
  let index := arange 1 (levels + 1) in
  Ok ({| Level := index;
         Price := prices;
         Qty := qty;
         Acc_Qty := acc_qty;
         Avg_Price := vwap;
         Unrealised := unreal;
         Drawdown := draw;
         PnL := unreal;
         Margin_per_lvl := map (fun _ => m_slice) index;
         Acc_Margin := acc_margin;
         Nominal := notional |},
      raw_gap).

(** Number of rows of the table. *)
Definition rows (df : DataFrame) : nat := length (Level df).

End Numpy.

Arguments DataFrame F : clear implicits.

(** ** Exact instance: rationals extended with the IEEE special values *)

Module Exact.

Inductive xq : Type :=
| Fin (q : Q)
| PInf
| NInf
| NaN.

(** Nearest integer, ties to even. *)
Definition round_half_even (q : Q) : Z :=
  let f := Qfloor q in
  match (q - inject_Z f ?= 1 # 2)%Q with
  | Lt => f
  | Gt => f + 1
  | Eq => if Z.even f then f else f + 1
  end.

Definition xneg (a : xq) : xq :=
  match a with
  | Fin q => Fin (- q)
  | PInf => NInf
  | NInf => PInf
  | NaN => NaN
  end.

Definition xadd (a b : xq) : xq :=
  match a, b with
  | NaN, _ | _, NaN => NaN
  | Fin p, Fin q => Fin (p + q)
  | PInf, NInf | NInf, PInf => NaN
  | PInf, _ | _, PInf => PInf
  | NInf, _ | _, NInf => NInf
  end.

Definition xsub (a b : xq) : xq := xadd a (xneg b).

(** An infinity scaled by a finite factor; [inf * 0] is nan. *)
Definition scale_inf (inf : xq) (q : Q) : xq :=
  match (q ?= 0)%Q with
  | Eq => NaN
  | Gt => inf
  | Lt => xneg inf
  end.

Definition xmul (a b : xq) : xq :=
  match a, b with
  | NaN, _ | _, NaN => NaN
  | Fin p, Fin q => Fin (p * q)
  | Fin p, PInf => scale_inf PInf p
  | Fin p, NInf => scale_inf NInf p
  | PInf, Fin q => scale_inf PInf q
  | NInf, Fin q => scale_inf NInf q
  | PInf, PInf | NInf, NInf => PInf
  | PInf, NInf | NInf, PInf => NInf
  end.

(** IEEE division.  The rationals have one zero, taken as +0. *)
Definition xdiv (a b : xq) : xq :=
  match a, b with
  | NaN, _ | _, NaN => NaN
  | Fin p, Fin q =>
      if Qeq_bool q 0
      then match (p ?= 0)%Q with
           | Eq => NaN
           | Gt => PInf
           | Lt => NInf
           end
      else Fin (p / q)
  | Fin _, PInf | Fin _, NInf => Fin 0
  | PInf, Fin q => if Qle_bool 0 q then PInf else NInf
  | NInf, Fin q => if Qle_bool 0 q then NInf else PInf
  | _, _ => NaN
  end.

Definition xrint (a : xq) : xq :=
  match a with
  | Fin q => Fin (inject_Z (round_half_even q))
  | _ => a
  end.

(** [np.floor_divide]: a zero divisor gives [a / b]; otherwise the
    quotient is rebuilt from [fmod], which is nan for an infinite
    dividend, and comes out as the floor of the exact quotient. *)
Definition xfloor_divide (a b : xq) : xq :=
  match b with
  | NaN => NaN
  | Fin q =>
      if Qeq_bool q 0 then xdiv a b
      else match a with
           | Fin p => Fin (inject_Z (Qfloor (p / q)))
           | _ => NaN
           end
  | PInf =>
      match a with
      | Fin p => if Qle_bool 0 p then Fin 0 else Fin (-1)
      | _ => NaN
      end
  | NInf =>
      match a with
      | Fin p => if Qle_bool p 0 then Fin 0 else Fin (-1)
      | _ => NaN
      end
  end.

Definition xeqb (a b : xq) : bool :=
  match a, b with
  | Fin p, Fin q => Qeq_bool p q
  | PInf, PInf | NInf, NInf => true
  | _, _ => false
  end.

Definition xleb (a b : xq) : bool :=
  match a, b with
  | NaN, _ | _, NaN => false
  | Fin p, Fin q => Qle_bool p q
  | NInf, _ | _, PInf => true
  | _, _ => false
  end.

#[global] Instance xq_float64 : Float64 xq := {|
  of_int := fun z => Fin (inject_Z z);
  fadd := xadd;
  fsub := xsub;
  fmul := xmul;
  fdiv := xdiv;
  fneg := xneg;
  rint := xrint;
  floor_divide := xfloor_divide;
  feqb := xeqb;
  fleb := xleb;
|}.

(** Two values denote the same number (or the same special value). *)
Definition same (a b : xq) : Prop :=
  match a, b with
  | Fin p, Fin q => (p == q)%Q
  | PInf, PInf | NInf, NInf | NaN, NaN => True
  | _, _ => False
  end.

(** Order on the extended values, as [<=] and [<] compute it: nan is not
    comparable with anything. *)
Definition xltb (a b : xq) : bool :=
  match a, b with
  | NaN, _ | _, NaN => false
  | Fin p, Fin q => negb (Qle_bool q p)
  | PInf, _ | _, NInf => false
  | _, _ => true
  end.

Definition xle (a b : xq) : Prop := xleb a b = true.
Definition xlt (a b : xq) : Prop := xltb a b = true.

(** [10 ** n], as the product [power_of_ten] forms. *)
Definition pow10q (n : Z) : Q :=
  Nat.iter (Z.to_nat n) (fun r => r * inject_Z 10)%Q (inject_Z 1).

(** [np.round(q, d)] on a finite value, for [d > 0]. *)
Definition roundq (q : Q) (d : Z) : Q :=
  (inject_Z (round_half_even (q * pow10q d)) / pow10q d)%Q.

(** The quantity bought at a positive finite price. *)
Definition lotq (usdt price : Q) : Q :=
  let q := (inject_Z (Qfloor (usdt / price / inject_Z 10)) * inject_Z 10)%Q in
  if Qeq_bool q (inject_Z 0) then inject_Z 10 else q.

End Exact.

(** ** Binary64 instance: IEEE double precision *)

Module Binary64.

(** Conversion of a Python int, correctly rounded. *)
Definition of_Z (z : Z) : float :=
  SF2Prim (binary_normalize prec emax z 0 false).

(** C [rint] in the default rounding mode: ties to even, sign kept. *)
Definition rint64 (x : float) : float :=
  match Prim2SF x with
  | S754_finite s m e =>
      if 0 <=? e then x
      else
        let d := 2 ^ (- e) in
        let q := Z.pos m / d in
        let r := Z.pos m mod d in
        let n := match 2 * r ?= d with
                 | Lt => q
                 | Gt => q + 1
                 | Eq => if Z.even q then q else q + 1
                 end in
        SF2Prim (binary_normalize prec emax (cond_Zopp s n) 0 s)
  | _ => x
  end.

(** C [floor]. *)
Definition floor64 (x : float) : float :=
  match Prim2SF x with
  | S754_finite s m e =>
      if 0 <=? e then x
      else
        let d := 2 ^ (- e) in
        let q := Z.pos m / d in
        let r := Z.pos m mod d in
        let n := if s then (if r =? 0 then q else q + 1) else q in
        SF2Prim (binary_normalize prec emax (cond_Zopp s n) 0 s)
  | _ => x
  end.

(** C [fmod]: exact remainder of the truncated quotient, sign of [a]. *)
Definition fmod64 (a b : float) : float :=
  match Prim2SF a, Prim2SF b with
  | S754_nan, _ | _, S754_nan => nan
  | S754_infinity _, _ => nan
  | _, S754_zero _ => nan
  | S754_zero _, _ => a
  | S754_finite _ _ _, S754_infinity _ => a
  | S754_finite sa ma ea, S754_finite _ mb eb =>
      let e := Z.min ea eb in
      let A := Z.pos ma * 2 ^ (ea - e) in
      let B := Z.pos mb * 2 ^ (eb - e) in
      SF2Prim (binary_normalize prec emax (cond_Zopp sa (A mod B)) e sa)
  end.

Definition copysign64 (x y : float) : float :=
  if get_sign y then (- abs x)%float else abs x.

(** C truth value of a double: [x != 0], true for nan. *)
Definition nonzero (x : float) : bool := negb (x =? 0)%float.

(** numpy's [npy_divmod], quotient part. *)
Definition npy_divmod (a b : float) : float :=
  let mod_ := fmod64 a b in
  if negb (nonzero b) then (a / b)%float
  else
    let div := ((a - mod_) / b)%float in
    let div := if nonzero mod_
               then if xorb (b <? 0)%float (mod_ <? 0)%float
                    then (div - 1)%float else div
               else div in
    if nonzero div
    then let floordiv := floor64 div in
         if (0.5 <? div - floordiv)%float then (floordiv + 1)%float else floordiv
    else copysign64 0%float (a / b)%float.

(** numpy's [npy_floor_divide]. *)
Definition floor_divide64 (a b : float) : float :=
  if negb (nonzero b) then (a / b)%float else npy_divmod a b.

#[global] Instance float_float64 : Float64 float := {|
  of_int := of_Z;
  fadd := PrimFloat.add;
  fsub := PrimFloat.sub;
  fmul := PrimFloat.mul;
  fdiv := PrimFloat.div;
  fneg := PrimFloat.opp;
  rint := rint64;
  floor_divide := floor_divide64;
  feqb := PrimFloat.eqb;
  fleb := PrimFloat.leb;
|}.

(** The double nearest to the decimal [n / 10^d] (a Python float literal
    with at most 15 significant digits). *)
Definition decimal (n : Z) (d : Z) : float := (of_Z n / of_Z (10 ^ d))%float.

End Binary64.

(** ** The worked scenario of the specification *)

(** min_price=1.0, max_price=7.0, start_price=2.7916, levels=124,
    usdt_slice=203.252, leverage=50, price_dp=6, in binary64. *)
Definition scenario64 : py (DataFrame float * float) :=
  build_grid (Binary64.of_Z 1) (Binary64.of_Z 7) (Binary64.decimal 27916 4) 124
             (Binary64.decimal 203252 3) 50 6.

(** The same input in exact arithmetic. *)
Definition scenario_exact : py (DataFrame Exact.xq * Exact.xq) :=
  build_grid (Exact.Fin 1) (Exact.Fin 7) (Exact.Fin 2.7916) 124
             (Exact.Fin 203.252) 50 6.

(** What the scenario promises of a run, over either instance: [eq] compares
    a computed value with an expected one. *)
Definition scenario_holds {F : Type} (eq : F -> F -> Prop) (dflt : F)
  (run : py (DataFrame F * F)) (gap seven one margin acc_margin nominal : F) : Prop :=
  match run with
  | Ok (df, raw_gap) =>
      eq raw_gap gap /\
      rows df = 124%nat /\
      eq (nth 0 (Price df) dflt) seven /\
      eq (nth 123 (Price df) dflt) one /\
      length (Margin_per_lvl df) = 124%nat /\
      Forall (fun m => eq m margin) (Margin_per_lvl df) /\
      eq (nth 123 (Acc_Margin df) dflt) acc_margin /\
      eq (nth 123 (Nominal df) dflt) nominal
  | Raise _ => False
  end.

(** ** Parameters of one calculation, as the specification names them *)

Record GridParameters : Type := {
  min_price : Q;
  max_price : Q;
  start_price : Q;
  levels : Z;
  usdt_slice : Q;
  leverage : Z;
  price_dp : Z;
}.

(** The preconditions the specification puts on the parameters. *)
Definition valid (p : GridParameters) : Prop :=
  (min_price p < max_price p)%Q /\
  2 <= levels p /\
  (0 < min_price p)%Q /\
  (0 < max_price p)%Q /\
  (0 < start_price p)%Q /\
  (0 < usdt_slice p)%Q /\
  1 <= leverage p /\
  2 <= price_dp p <= 10.

(** [build_grid] called on the parameters, in exact arithmetic. *)
Definition compute (p : GridParameters) : py (DataFrame Exact.xq * Exact.xq) :=
  build_grid (Exact.Fin (min_price p)) (Exact.Fin (max_price p)) (Exact.Fin (start_price p))
             (levels p) (Exact.Fin (usdt_slice p)) (leverage p) (price_dp p).

(** The finite values the columns hold while no division by zero occurs:
    the same expressions as in [build_grid], on rationals. *)
Definition gapq (p : GridParameters) : Q :=
  ((max_price p + - min_price p) / inject_Z (levels p - 1))%Q.

Definition rawq (p : GridParameters) (i : nat) : Q :=
  (max_price p + - (inject_Z (Z.of_nat i) * gapq p))%Q.

Definition priceq (p : GridParameters) (i : nat) : Q :=
  Exact.roundq (rawq p i) (price_dp p).

Definition qtyq (p : GridParameters) (i : nat) : Q :=
  Exact.lotq (usdt_slice p) (priceq p i).

Fixpoint accq (p : GridParameters) (i : nat) : Q :=
  match i with
  | O => qtyq p 0
  | S j => (accq p j + qtyq p (S j))%Q
  end.

Fixpoint costq (p : GridParameters) (i : nat) : Q :=
  match i with
  | O => (qtyq p 0 * priceq p 0)%Q
  | S j => (costq p j + qtyq p (S j) * priceq p (S j))%Q
  end.

Fixpoint drawq (p : GridParameters) (i : nat) : Q :=
  match i with
  | O => inject_Z 0
  | S j => (drawq p j + (priceq p j + - priceq p (S j)) * accq p j)%Q
  end.

(** Entry [i] of a column of the exact table. *)
Definition cell (col : list Exact.xq) (i : nat) : Exact.xq := nth i col (Exact.Fin 0).

(** ** Input surface and template store *)

(** A value held by a number input or stored in a template: a Python int
    or a Python float. *)
Inductive pyval (F : Type) : Type :=
| PyInt (n : Z)
| PyFloat (x : F).
Arguments PyInt {F} n.
Arguments PyFloat {F} x.

(** The values of the eight number inputs of the sidebar. *)
Record Inputs (F : Type) : Type := {
  px_top : F;
  px_bottom : F;
  spot : F;
  n_levels : Z;
  slice_val : F;
  n_leverage : Z;
  n_price_dp : Z;
  gap_dp : Z;
}.
Arguments px_top {F} _.
Arguments px_bottom {F} _.
Arguments spot {F} _.
Arguments n_levels {F} _.
Arguments slice_val {F} _.
Arguments n_leverage {F} _.
Arguments n_price_dp {F} _.
Arguments gap_dp {F} _.

(** Content of [grid_templates.json].  The JSON text is kept as the
    document it denotes: [json.dumps] of a dictionary of records of ints
    and floats, read back by [json.loads], gives the same dictionary.
    Text that [json.loads] rejects is [Malformed]. *)
Inductive template_file (F : Type) : Type :=
| Absent
| Malformed
| Document (tpls : gmap string (gmap string (pyval F))).
Arguments Absent {F}.
Arguments Malformed {F}.
Arguments Document {F} tpls.

(** What one run of the calculation part of the script does. *)
Inductive outcome (F : Type) : Type :=
| Stopped (message : string)
| Idle
| Calculated (result : py (DataFrame F * F)).
Arguments Stopped {F} message.
Arguments Idle {F}.
Arguments Calculated {F} result.

Section Surface.
Context {F : Type} `{Float64 F}.

Definition load_templates (file : template_file F) : gmap string (gmap string (pyval F)) :=
  match file with
  | Document tpls => tpls
  | Absent | Malformed => ∅
  end.

Definition save_templates (tpls : gmap string (gmap string (pyval F))) : template_file F :=
  Document tpls.

(** [d[key]] *)
Definition getitem {V : Type} (d : gmap string V) (key : string) : py V :=
  match d !! key with
  | Some v => Ok v
  | None => Raise (KeyError key)
  end.

(** [d.get(key, dflt)] *)
Definition get_or {V : Type} (d : gmap string V) (key : string) (dflt : V) : V :=
  match d !! key with
  | Some v => v
  | None => dflt
  end.

Definition template_to_kwargs (d : gmap string (pyval F)) : py (gmap string (pyval F)) :=
  v_top <<- getitem d "max_price" ;;
  v_bottom <<- getitem d "min_price" ;;
  v_spot <<- getitem d "start_price" ;;
  v_levels <<- getitem d "levels" ;;
  v_slice <<- getitem d "usdt_slice" ;;
  v_leverage <<- getitem d "leverage" ;;
  Ok (<["px_top" := v_top]>
      (<["px_bottom" := v_bottom]>
      (<["spot" := v_spot]>
      (<["levels" := v_levels]>
      (<["slice_val" := v_slice]>
      (<["leverage" := v_leverage]>
      (<["price_dp" := get_or d "price_dp" (PyInt 6)]>
      (<["gap_dp" := get_or d "gap_dp" (PyInt 8)]> ∅)))))))).

(** The record the save button stores for the current inputs. *)
Definition template_of_inputs (w : Inputs F) : gmap string (pyval F) :=
  <["max_price" := PyFloat (px_top w)]>
  (<["min_price" := PyFloat (px_bottom w)]>
  (<["start_price" := PyFloat (spot w)]>
  (<["levels" := PyInt (n_levels w)]>
  (<["usdt_slice" := PyFloat (slice_val w)]>
  (<["leverage" := PyInt (n_leverage w)]>
  (<["price_dp" := PyInt (n_price_dp w)]>
  (<["gap_dp" := PyInt (gap_dp w)]> ∅))))))).

(** [if st.button("Save template") and new_tpl_name: ...]: the dictionary
    in memory and the file after the step. *)
Definition save_template (tpls : gmap string (gmap string (pyval F)))
    (file : template_file F) (clicked : bool) (new_tpl_name : string) (w : Inputs F)
  : gmap string (gmap string (pyval F)) * template_file F :=
  if clicked && negb (String.eqb new_tpl_name "")
  then let tpls' := <[new_tpl_name := template_of_inputs w]> tpls in
       (tpls', save_templates tpls')
  else (tpls, file).

(** The keyword arguments that reproduce the inputs [w]. *)
Definition kwargs_of_inputs (w : Inputs F) : gmap string (pyval F) :=
  <["px_top" := PyFloat (px_top w)]>
  (<["px_bottom" := PyFloat (px_bottom w)]>
  (<["spot" := PyFloat (spot w)]>
  (<["levels" := PyInt (n_levels w)]>
  (<["slice_val" := PyFloat (slice_val w)]>
  (<["leverage" := PyInt (n_leverage w)]>
  (<["price_dp" := PyInt (n_price_dp w)]>
  (<["gap_dp" := PyInt (gap_dp w)]> ∅))))))).

(** The guard before the calculation and the "Calculate grid" button. *)
Definition calculate (w : Inputs F) (clicked : bool) : outcome F :=
  if fleb (px_top w) (px_bottom w)
  then Stopped "Max price must be > Min price"
  else if clicked
       then Calculated (build_grid (px_bottom w) (px_top w) (spot w) (n_levels w)
                                   (slice_val w) (n_leverage w) (n_price_dp w))
       else Idle.

End Surface.

(** ** Inputs used below *)

(** The "minimum levels" scenario of the specification: two levels from 2
    down to 1. *)
Definition two_levels : GridParameters :=
  {| min_price := 1; max_price := 2; start_price := 1.5; levels := 2;
     usdt_slice := 100; leverage := 10; price_dp := 2 |}.

(** A range narrower than one unit of the last place of the prices. *)
Definition narrow_range : GridParameters :=
  {| min_price := 1; max_price := 1.001; start_price := 1; levels := 2;
     usdt_slice := 100; leverage := 10; price_dp := 2 |}.

Definition narrow_range64 : py (DataFrame float * float) :=
  build_grid (Binary64.of_Z 1) (Binary64.decimal 1001 3) (Binary64.of_Z 1) 2
             (Binary64.of_Z 100) 10 2.

(** A gap of exactly one unit of the last place, between two ties. *)
Definition unit_gap : GridParameters :=
  {| min_price := 0.015; max_price := 0.025; start_price := 1; levels := 2;
     usdt_slice := 100; leverage := 10; price_dp := 2 |}.

(** Positive prices below half a unit of the last place. *)
Definition tiny_prices : GridParameters :=
  {| min_price := 0.001; max_price := 0.004; start_price := 1; levels := 2;
     usdt_slice := 100; leverage := 10; price_dp := 2 |}.

Definition tiny_prices64 : py (DataFrame float * float) :=
  build_grid (Binary64.decimal 1 3) (Binary64.decimal 4 3) (Binary64.of_Z 1) 2
             (Binary64.of_Z 100) 10 2.

(** min_price=0.125 (a tie at two decimals), max_price=2.0, 12 levels, in
    binary64. *)
Definition boundary64 : py (DataFrame float * float) :=
  build_grid (Binary64.decimal 125 3) (Binary64.of_Z 2) (Binary64.of_Z 1) 12
             (Binary64.of_Z 100) 10 2.

(** The default inputs of the sidebar, the scenario of the specification. *)
Definition default_inputs : Inputs Exact.xq :=
  {| px_top := Exact.Fin 7; px_bottom := Exact.Fin 1; spot := Exact.Fin 2.7916;
     n_levels := 124; slice_val := Exact.Fin 203.252; n_leverage := 50;
     n_price_dp := 6; gap_dp := 8 |}.

(** Inputs with the price range upside down. *)
Definition inverted_inputs : Inputs Exact.xq :=
  {| px_top := Exact.Fin 1; px_bottom := Exact.Fin 2; spot := Exact.Fin 1.5;
     n_levels := 3; slice_val := Exact.Fin 100; n_leverage := 10;
     n_price_dp := 2; gap_dp := 8 |}.

(** All rounded level prices of the exact table are strictly positive. *)
Definition prices_positive (p : GridParameters) : bool :=
  match compute p with
  | Ok (df, _) => forallb (Exact.xltb (Exact.Fin 0)) (Price df)
  | Raise _ => false
  end.

(** ** Presentation: cell styles, row stripes, sidebar *)

(** The strict comparison [<] of floats, which the cell styles use. *)
Class Float64Lt (F : Type) : Type := fltb : F -> F -> bool.

#[global] Instance xq_lt : Float64Lt Exact.xq := Exact.xltb.
#[global] Instance float_lt : Float64Lt float := PrimFloat.ltb.

Definition POS_CLR : string := "#2a9d8f".
Definition NEG_TXT : string := "#e63946".
Definition NEG_BG : string := "#ffecec".
Definition ROW_EVEN : string := "#ffffff".
Definition ROW_ODD : string := "#f7f7f7".

(** The values a number input starts from, one per input of the sidebar. *)
Record InputValues (F : Type) : Type := {
  v_px_top : pyval F;
  v_px_bottom : pyval F;
  v_spot : pyval F;
  v_levels : pyval F;
  v_slice_val : pyval F;
  v_leverage : pyval F;
  v_price_dp : pyval F;
  v_gap_dp : pyval F;
}.
Arguments v_px_top {F} _.
Arguments v_px_bottom {F} _.
Arguments v_spot {F} _.
Arguments v_levels {F} _.
Arguments v_slice_val {F} _.
Arguments v_leverage {F} _.
Arguments v_price_dp {F} _.
Arguments v_gap_dp {F} _.

Section Presentation.
Context {F : Type} `{Float64 F} `{Float64Lt F}.

Definition style_pos_neg (val : F) : string :=
  if fltb val (of_int 0) then ("color:" ++ NEG_TXT ++ ";")%string
  else if fltb (of_int 0) val then ("color:" ++ POS_CLR ++ ";")%string
  else "".

Definition style_drawdown (val : F) : string :=
  if fltb val (of_int 0)
  then ("background-color:" ++ NEG_BG ++ "; color:" ++ NEG_TXT ++ ";")%string
  else "".

(** The stripes: one row of styles per row of the table, one style per
    column ([df.columns] has eleven names), odd rows in [ROW_ODD]. *)
Definition zebra (df : DataFrame F) : list (list string) :=
  map (fun i : nat =>
         repeat ("background-color:"
                 ++ (if (Z.of_nat i mod 2 =? 0)%Z then ROW_EVEN else ROW_ODD) ++ ";")%string
                11)
      (seq 0 (rows df)).

(** The entries of the "Load template" select box.  Python keeps the
    names in insertion order after "<None>"; the order is not modelled. *)
Definition tpl_options (tpls : gmap string (gmap string (pyval F))) : gset string :=
  {[ "<None>"%string ]} ∪ dom tpls.

(** [kwargs = template_to_kwargs(tpls[selected_tpl])
             if selected_tpl != "<None>" else {}] *)
Definition selected_kwargs (tpls : gmap string (gmap string (pyval F)))
    (selected_tpl : string) : py (gmap string (pyval F)) :=
  if negb (String.eqb selected_tpl "<None>")
  then d <<- getitem tpls selected_tpl ;; template_to_kwargs d
  else Ok ∅.

(** A Python float literal with [d] decimals. *)
Definition literal (n d : Z) : F := fdiv (of_int n) (of_int (10 ^ d)).

(** The [value=kwargs.get(..., default)] arguments of the eight number
    inputs. *)
Definition input_values (kwargs : gmap string (pyval F)) : InputValues F :=
  {| v_px_top := get_or kwargs "px_top" (PyFloat (literal 70 1));
     v_px_bottom := get_or kwargs "px_bottom" (PyFloat (literal 10 1));
     v_spot := get_or kwargs "spot" (PyFloat (literal 27916 4));
     v_levels := get_or kwargs "levels" (PyInt 124);
     v_slice_val := get_or kwargs "slice_val" (PyFloat (literal 203252 3));
     v_leverage := get_or kwargs "leverage" (PyInt 50);
     v_price_dp := get_or kwargs "price_dp" (PyInt 6);
     v_gap_dp := get_or kwargs "gap_dp" (PyInt 8) |}.

(** The input values that show the inputs [w] again. *)
Definition values_of_inputs (w : Inputs F) : InputValues F :=
  {| v_px_top := PyFloat (px_top w);
     v_px_bottom := PyFloat (px_bottom w);
     v_spot := PyFloat (spot w);
     v_levels := PyInt (n_levels w);
     v_slice_val := PyFloat (slice_val w);
     v_leverage := PyInt (n_leverage w);
     v_price_dp := PyInt (n_price_dp w);
     v_gap_dp := PyInt (gap_dp w) |}.

End Presentation.

(** ** Further readings of the exact table *)

(** The number a finite cell holds (0 for a special value). *)
Definition finite_value (a : Exact.xq) : Q :=
  match a with
  | Exact.Fin q => q
  | _ => 0%Q
  end.

(** What the position held after row [i] has cost: the sum of
    [qty[j] * price[j]] for [j <= i]. *)
Fixpoint position_cost (df : DataFrame Exact.xq) (i : nat) : Q :=
  let term := (finite_value (cell (Qty df) i) * finite_value (cell (Price df) i))%Q in
  match i with
  | O => term
  | S j => (position_cost df j + term)%Q
  end.

(** Parameters with a start price above the range. *)
Definition three_levels : GridParameters :=
  {| min_price := 1; max_price := 2; start_price := 2.5; levels := 3;
     usdt_slice := 100; leverage := 10; price_dp := 2 |}.

(** Inputs within the bounds of the number inputs. *)
Definition plain_inputs : Inputs Exact.xq :=
  {| px_top := Exact.Fin 2; px_bottom := Exact.Fin 1; spot := Exact.Fin 1.5;
     n_levels := 3; slice_val := Exact.Fin 100; n_leverage := 10;
     n_price_dp := 2; gap_dp := 8 |}.

(** ** Fields of a template record; the margin of one level *)

(** The fields [template_to_kwargs] reads with [d[...]], in the order it
    reads them. *)
Definition required_fields : list string :=
  ["max_price"; "min_price"; "start_price"; "levels"; "usdt_slice"; "leverage"]%string.

(** All the fields [template_to_kwargs] reads. *)
Definition template_fields : list string :=
  required_fields ++ ["price_dp"%string; "gap_dp"%string].

(** The names of the keyword arguments. *)
Definition kwargs_names : gset string :=
  list_to_set ["px_top"; "px_bottom"; "spot"; "levels"; "slice_val"; "leverage";
               "price_dp"; "gap_dp"]%string.

Definition field_missing {V : Type} (d : gmap string V) (key : string) : bool :=
  match d !! key with
  | Some _ => false
  | None => true
  end.

(** [np.round(usdt_slice / leverage, 2)] on finite values. *)
Definition marginq (p : GridParameters) : Q :=
  Exact.roundq (usdt_slice p / inject_Z (leverage p)) 2.

(** * Properties of the array operations, for any float instance *)

Section ArrayFacts.
Context {F : Type} `{Float64 F}.

Lemma arange_length (lo hi : Z) : length (arange lo hi) = Z.to_nat (hi - lo).
Proof. unfold arange. now rewrite length_map, length_seq. Qed.

Lemma arange_nth (lo hi : Z) (i : nat) (d : Z) :
  (i < Z.to_nat (hi - lo))%nat -> nth i (arange lo hi) d = lo + Z.of_nat i.
Proof.
  intros Hi. unfold arange.
  rewrite (nth_indep _ d (lo + Z.of_nat 0)) by now rewrite length_map, length_seq.
  rewrite (map_nth (fun k : nat => lo + Z.of_nat k)), seq_nth by assumption.
  reflexivity.
Qed.

Lemma arange_snoc (lo hi : Z) :
  lo <= hi -> arange lo (hi + 1) = arange lo hi ++ [hi].
Proof.
  intros Hle. unfold arange.
  replace (Z.to_nat (hi + 1 - lo)) with (S (Z.to_nat (hi - lo))) by lia.
  rewrite seq_S, map_app. simpl. do 2 f_equal. lia.
Qed.

Lemma grid_prices_length (max_px : F) (levels : Z) (gap : F) (dp : Z) :
  length (grid_prices max_px levels gap dp) = Z.to_nat levels.
Proof.
  unfold grid_prices. rewrite !length_map, arange_length. f_equal. lia.
Qed.

Lemma grid_prices_nth (max_px : F) (levels : Z) (gap : F) (dp : Z) (i : nat) (d : F) :
  (i < Z.to_nat levels)%nat ->
  nth i (grid_prices max_px levels gap dp) d
  = np_round (fsub max_px (fmul (of_int (Z.of_nat i)) gap)) dp.
Proof.
  intros Hi. unfold grid_prices.
  set (g := fun x => np_round x dp).
  set (r := fun i0 => fsub max_px (fmul (of_int i0) gap)).
  rewrite (nth_indep _ d (g (r 0))) by (rewrite !length_map, arange_length; lia).
  rewrite (map_nth g), (map_nth r), arange_nth by lia.
  reflexivity.
Qed.

Lemma grid_qty_length (usdt : F) (prices : list F) :
  length (grid_qty usdt prices) = length prices.
Proof. unfold grid_qty. now rewrite !length_map. Qed.

Lemma grid_qty_nth (usdt : F) (prices : list F) (i : nat) (d : F) :
  (i < length prices)%nat ->
  nth i (grid_qty usdt prices) d
  = let q := fmul (floor_divide (fdiv usdt (nth i prices d)) (of_int 10)) (of_int 10) in
    if feqb q (of_int 0) then of_int 10 else q.
Proof.
  intros Hi. unfold grid_qty.
  set (a := fun p => fmul (floor_divide (fdiv usdt p) (of_int 10)) (of_int 10)).
  set (b := fun q => if feqb q (of_int 0) then of_int 10 else q).
  rewrite (nth_indep _ d (b (a d))) by now rewrite !length_map.
  rewrite (map_nth b), (map_nth a). reflexivity.
Qed.

Lemma cumsum_from_length (acc : F) (l : list F) : length (cumsum_from acc l) = length l.
Proof. revert acc. induction l as [|x l IH]; intros acc; simpl; [|rewrite IH]; reflexivity. Qed.

Lemma cumsum_length (l : list F) : length (cumsum l) = length l.
Proof. destruct l; simpl; [|rewrite cumsum_from_length]; reflexivity. Qed.

Lemma cumsum_from_nth (acc : F) (l : list F) (i : nat) (d : F) :
  (i < length l)%nat ->
  nth i (cumsum_from acc l) d
  = fadd (match i with O => acc | S j => nth j (cumsum_from acc l) d end) (nth i l d).
Proof.
  revert acc i. induction l as [|x l IH]; intros acc i Hi; simpl in Hi; [lia|].
  destruct i as [|i]; simpl; [reflexivity|].
  rewrite IH by lia. destruct i; reflexivity.
Qed.

(** The running sum, by index: the first entry is the first term, and each
    later entry adds one term to the entry before. *)
Lemma cumsum_nth_0 (l : list F) (d : F) : nth 0 (cumsum l) d = nth 0 l d.
Proof. destruct l; reflexivity. Qed.

Lemma cumsum_nth_S (l : list F) (i : nat) (d : F) :
  (S i < length l)%nat ->
  nth (S i) (cumsum l) d = fadd (nth i (cumsum l) d) (nth (S i) l d).
Proof.
  destruct l as [|x l]; simpl; intros Hi; [lia|].
  rewrite cumsum_from_nth by lia. destruct i; reflexivity.
Qed.

Lemma zip_with_arr_length (f : F -> F -> F) (a b : list F) :
  length a = length b -> length (zip_with_arr f a b) = length a.
Proof.
  revert b. induction a as [|x a IH]; intros [|y b] Hl; simpl in *; try lia.
  now rewrite IH by lia.
Qed.

Lemma zip_with_arr_nth (f : F -> F -> F) (a b : list F) (i : nat) (d : F) :
  (i < length a)%nat -> length a = length b ->
  nth i (zip_with_arr f a b) d = f (nth i a d) (nth i b d).
Proof.
  revert b i. induction a as [|x a IH]; intros [|y b] i Hi Hl; simpl in *; try lia.
  destruct i; [reflexivity|]. apply IH; lia.
Qed.

Lemma zeros_like_length (a : list F) : length (zeros_like a) = length a.
Proof. unfold zeros_like. now rewrite length_map. Qed.

Lemma zeros_like_nth (a : list F) (i : nat) : nth i (zeros_like a) (of_int 0) = of_int 0.
Proof.
  unfold zeros_like. revert i. induction a as [|x a IH]; intros [|i]; simpl; auto.
Qed.

Lemma draw_step_length (prices acc d : list F) (i : Z) :
  length (draw_step prices acc d i) = length d.
Proof. unfold draw_step. apply length_insert. Qed.

(** State of the drawdown array after the loop has run for i = 1 .. k:
    the recurrence holds up to k and the entries beyond are still zero. *)
Lemma draw_loop_prefix (prices acc : list F) (k : nat) :
  (k < length prices)%nat ->
  let d := fold_left (draw_step prices acc) (arange 1 (Z.of_nat k + 1)) (zeros_like prices) in
  length d = length prices /\
  nth 0 d (of_int 0) = of_int 0 /\
  (forall i, (1 <= i <= k)%nat ->
     nth i d (of_int 0)
     = fadd (nth (i - 1) d (of_int 0))
            (fmul (fsub (nth (i - 1) prices (of_int 0)) (nth i prices (of_int 0)))
                  (nth (i - 1) acc (of_int 0)))) /\
  (forall i, (k < i)%nat -> nth i d (of_int 0) = of_int 0).
Proof.
  induction k as [|k IH]; intros Hk; cbn zeta.
  - replace (arange 1 (Z.of_nat 0 + 1)) with (@nil Z) by reflexivity. simpl.
    split; [apply zeros_like_length|]. split; [|split].
    + apply zeros_like_nth.
    + intros i Hi; lia.
    + intros i Hi. apply zeros_like_nth.
  - specialize (IH ltac:(lia)). cbn zeta in IH.
    replace (Z.of_nat (S k) + 1) with ((Z.of_nat k + 1) + 1) by lia.
    rewrite arange_snoc by lia. rewrite fold_left_app. simpl.
    set (d := fold_left (draw_step prices acc) (arange 1 (Z.of_nat k + 1)) (zeros_like prices)) in *.
    destruct IH as (Hlen & H0 & Hrec & Hzero).
    unfold draw_step, at_index.
    replace (Z.to_nat (Z.of_nat k + 1)) with (S k) by lia.
    replace (Z.to_nat (Z.of_nat k + 1 - 1)) with k by lia.
    set (v := fadd _ _).
    assert (Hget : forall j, nth j (<[S k := v]> d) (of_int 0)
                             = if decide (j = S k) then v else nth j d (of_int 0)).
    { intros j. destruct (decide (j = S k)) as [->|Hne].
      - apply nth_lookup_Some. apply list_lookup_insert_eq. lia.
      - rewrite !nth_lookup. now rewrite list_lookup_insert_ne by congruence. }
    split; [now rewrite length_insert|]. split; [|split].
    + rewrite Hget. destruct (decide (0%nat = S k)); [lia|assumption].
    + intros i Hi. rewrite !Hget.
      destruct (decide (i = S k)) as [->|Hne].
      * destruct (decide ((S k - 1)%nat = S k)); [lia|].
        replace (S k - 1)%nat with k by lia. reflexivity.
      * destruct (decide ((i - 1)%nat = S k)); [lia|]. apply Hrec. lia.
    + intros i Hi. rewrite Hget. destruct (decide (i = S k)); [lia|]. apply Hzero. lia.
Qed.

(** The loop [for i in range(1, levels)] over arrays of [levels] entries. *)
Lemma draw_loop_spec (prices acc : list F) (levels : Z) :
  1 <= levels -> length prices = Z.to_nat levels ->
  let d := draw_loop prices acc levels in
  length d = Z.to_nat levels /\
  nth 0 d (of_int 0) = of_int 0 /\
  (forall i, (1 <= i < Z.to_nat levels)%nat ->
     nth i d (of_int 0)
     = fadd (nth (i - 1) d (of_int 0))
            (fmul (fsub (nth (i - 1) prices (of_int 0)) (nth i prices (of_int 0)))
                  (nth (i - 1) acc (of_int 0)))).
Proof.
  intros Hl Hlen. cbn zeta. unfold draw_loop.
  pose proof (draw_loop_prefix prices acc (Z.to_nat levels - 1) ltac:(lia)) as Hp.
  cbn zeta in Hp.
  replace (Z.of_nat (Z.to_nat levels - 1) + 1) with levels in Hp by lia.
  destruct Hp as (H1 & H2 & H3 & _).
  split; [lia|]. split; [assumption|]. intros i Hi. apply H3. lia.
Qed.

End ArrayFacts.

(** * Shape of the result, for any float instance *)

Section GridFacts.
Context {F : Type} `{Float64 F}.

(** With more than one level and a non-zero leverage no division raises,
    and the columns of the table are the arrays of the function body. *)
Lemma build_grid_returns (min_px max_px start_px : F) (levels : Z) (usdt_slice : F)
    (leverage price_dp : Z) :
  levels <> 1 -> leverage <> 0 ->
  exists df : DataFrame F,
    build_grid min_px max_px start_px levels usdt_slice leverage price_dp
    = Ok (df, fdiv (fsub max_px min_px) (of_int (levels - 1))) /\
    Level df = arange 1 (levels + 1) /\
    Price df = grid_prices max_px levels
                 (fdiv (fsub max_px min_px) (of_int (levels - 1))) price_dp /\
    Qty df = grid_qty usdt_slice (Price df) /\
    Acc_Qty df = cumsum (Qty df) /\
    Avg_Price df = zip_with_arr (fun s a => np_round (fdiv s a) price_dp)
                     (cumsum (zip_with_arr fmul (Qty df) (Price df))) (Acc_Qty df) /\
    Unrealised df = zip_with_arr (fun p a => np_round (fmul (fsub p start_px) a) 2)
                      (Price df) (Acc_Qty df) /\
    Drawdown df = map (fun d => fneg (np_round d 2))
                    (draw_loop (Price df) (Acc_Qty df) levels) /\
    PnL df = Unrealised df /\
    Margin_per_lvl df
    = map (fun _ => np_round (fdiv usdt_slice (of_int leverage)) 2) (Level df) /\
    Acc_Margin df
    = map (fun k => np_round (fmul (np_round (fdiv usdt_slice (of_int leverage)) 2) (of_int k)) 2)
        (Level df) /\
    Nominal df = map (fun k => np_round (fmul usdt_slice (of_int k)) 2) (Level df).
Proof.
  intros Hl Hv. unfold build_grid, py_truediv.
  destruct (Z.eqb_spec (levels - 1) 0) as [E|_]; [lia|].
  destruct (Z.eqb_spec leverage 0) as [E|_]; [lia|].
  cbn [py_bind]. eexists. split; [reflexivity|]. cbn.
  repeat split; reflexivity.
Qed.

(** Every column of the returned table has [levels] entries. *)
Lemma build_grid_shape (min_px max_px start_px : F) (levels : Z) (usdt_slice : F)
    (leverage price_dp : Z) (df : DataFrame F) (gap : F) :
  1 <= levels ->
  build_grid min_px max_px start_px levels usdt_slice leverage price_dp = Ok (df, gap) ->
  rows df = Z.to_nat levels /\
  length (Price df) = Z.to_nat levels /\
  length (Qty df) = Z.to_nat levels /\
  length (Acc_Qty df) = Z.to_nat levels /\
  length (Avg_Price df) = Z.to_nat levels /\
  length (Unrealised df) = Z.to_nat levels /\
  length (Drawdown df) = Z.to_nat levels /\
  length (PnL df) = Z.to_nat levels /\
  length (Margin_per_lvl df) = Z.to_nat levels /\
  length (Acc_Margin df) = Z.to_nat levels /\
  length (Nominal df) = Z.to_nat levels.
Proof.
  intros Hl Hrun.
  assert (Hl1 : levels <> 1).
  { intros ->. unfold build_grid, py_truediv in Hrun. simpl in Hrun. discriminate. }
  assert (Hv : leverage <> 0).
  { intros ->. unfold build_grid, py_truediv in Hrun.
    destruct (levels - 1 =? 0); simpl in Hrun; discriminate. }
  destruct (build_grid_returns min_px max_px start_px levels usdt_slice leverage price_dp Hl1 Hv)
    as (df' & Hrun' & HL & HP & HQ & HA & HV & HU & HD & HN & HM & HAM & HNo).
  rewrite Hrun in Hrun'. injection Hrun' as <- _.
  assert (Lp : length (Price df) = Z.to_nat levels) by (rewrite HP; apply grid_prices_length).
  assert (Lq : length (Qty df) = Z.to_nat levels) by (rewrite HQ, grid_qty_length; exact Lp).
  assert (La : length (Acc_Qty df) = Z.to_nat levels) by (rewrite HA, cumsum_length; exact Lq).
  assert (Ll : length (Level df) = Z.to_nat levels).
  { rewrite HL, arange_length. f_equal. lia. }
  assert (Lu : length (Unrealised df) = Z.to_nat levels).
  { rewrite HU, zip_with_arr_length; congruence. }
  unfold rows. repeat split; try assumption.
  - rewrite HV, zip_with_arr_length; rewrite cumsum_length, zip_with_arr_length; congruence.
  - rewrite HD, length_map.
    apply (draw_loop_spec (Price df) (Acc_Qty df) levels Hl Lp).
  - congruence.
  - now rewrite HM, length_map.
  - now rewrite HAM, length_map.
  - now rewrite HNo, length_map.
Qed.

End GridFacts.

Import Exact.

(** * Rounding in exact arithmetic *)

Lemma inject_Z_succ (z : Z) : (inject_Z (z + 1) == inject_Z z + 1)%Q.
Proof. now rewrite inject_Z_plus. Qed.

Lemma floor_bounds (q : Q) : (inject_Z (Qfloor q) <= q < inject_Z (Qfloor q) + 1)%Q.
Proof.
  split; [apply Qfloor_le|]. rewrite <- inject_Z_succ. apply Qlt_floor.
Qed.

(** The rounded value is the floor or the next integer. *)
Lemma round_half_even_cases (q : Q) :
  (round_half_even q = Qfloor q /\ (q - inject_Z (Qfloor q) <= 1 # 2)%Q) \/
  (round_half_even q = Qfloor q + 1 /\ (1 # 2 <= q - inject_Z (Qfloor q))%Q).
Proof.
  unfold round_half_even.
  destruct (Qcompare_spec (q - inject_Z (Qfloor q)) (1 # 2)) as [He|Hl|Hg].
  - destruct (Z.even (Qfloor q)); [left|right]; split; try reflexivity; lra.
  - left. split; [reflexivity|lra].
  - right. split; [reflexivity|lra].
Qed.

Lemma round_half_even_near (q : Q) :
  (q - (1 # 2) <= inject_Z (round_half_even q) <= q + (1 # 2))%Q.
Proof.
  pose proof (floor_bounds q) as Hf.
  destruct (round_half_even_cases q) as [[-> Hc]|[-> Hc]].
  - lra.
  - rewrite inject_Z_succ. lra.
Qed.

#[global] Instance round_half_even_comp : Proper (Qeq ==> eq) round_half_even.
Proof.
  intros a b Hab. unfold round_half_even.
  rewrite (Qfloor_comp a b Hab).
  assert (Hc : (a - inject_Z (Qfloor b) ?= 1 # 2)%Q = (b - inject_Z (Qfloor b) ?= 1 # 2)%Q)
    by now rewrite Hab.
  now rewrite Hc.
Qed.

Lemma round_half_even_Z (z : Z) : round_half_even (inject_Z z) = z.
Proof.
  unfold round_half_even. rewrite Qfloor_Z.
  destruct (Qcompare_spec (inject_Z z - inject_Z z) (1 # 2)) as [He|Hl|Hg];
    [exfalso; lra | reflexivity | exfalso; lra].
Qed.

Lemma round_half_even_mono (a b : Q) :
  (a <= b)%Q -> round_half_even a <= round_half_even b.
Proof.
  intros Hab.
  pose proof (Qfloor_resp_le a b Hab) as Hf.
  destruct (Z.eq_dec (Qfloor a) (Qfloor b)) as [He|Hne].
  - unfold round_half_even. rewrite He.
    destruct (Qcompare_spec (a - inject_Z (Qfloor b)) (1 # 2)) as [Ha|Ha|Ha];
      destruct (Qcompare_spec (b - inject_Z (Qfloor b)) (1 # 2)) as [Hb|Hb|Hb];
      try (exfalso; lra); destruct (Z.even (Qfloor b)); lia.
  - destruct (round_half_even_cases a) as [[-> _]|[-> _]];
      destruct (round_half_even_cases b) as [[-> _]|[-> _]]; lia.
Qed.

Lemma power_of_ten_fin (n : Z) : power_of_ten n = Fin (pow10q n).
Proof.
  unfold power_of_ten, pow10q.
  induction (Z.to_nat n) as [|k IH]; [reflexivity|].
  rewrite !Nat.iter_succ, IH. reflexivity.
Qed.

Lemma pow10q_value (n : Z) : 0 <= n -> (pow10q n == inject_Z (10 ^ n))%Q.
Proof.
  intros Hn. unfold pow10q.
  rewrite <- (Z2Nat.id n) at 2 by assumption.
  induction (Z.to_nat n) as [|k IH].
  - reflexivity.
  - rewrite Nat2Z.inj_succ, Z.pow_succ_r by lia.
    rewrite Nat.iter_succ, IH, inject_Z_mult. ring.
Qed.

Lemma pow10q_pos (n : Z) : (0 < pow10q n)%Q.
Proof.
  unfold pow10q. induction (Z.to_nat n) as [|k IH].
  - reflexivity.
  - rewrite Nat.iter_succ. apply Qmult_lt_0_compat; [assumption|reflexivity].
Qed.

Lemma Qeq_bool_false_pos (q : Q) : (0 < q)%Q -> Qeq_bool q 0 = false.
Proof.
  intros Hq. destruct (Qeq_bool q 0) eqn:E; [|reflexivity].
  apply Qeq_bool_eq in E. lra.
Qed.

Lemma np_round_fin (q : Q) (d : Z) : 0 < d -> np_round (Fin q) d = Fin (roundq q d).
Proof.
  intros Hd. unfold np_round.
  destruct (Z.eqb_spec d 0) as [->|_]; [lia|].
  destruct (Z.ltb_spec 0 d) as [_|]; [|lia].
  rewrite power_of_ten_fin. simpl.
  now rewrite (Qeq_bool_false_pos _ (pow10q_pos d)).
Qed.

#[global] Instance roundq_comp : Proper (Qeq ==> eq ==> Qeq) roundq.
Proof.
  intros a b Hab d ? <-. unfold roundq. now rewrite Hab.
Qed.

Lemma roundq_mono (a b : Q) (d : Z) : (a <= b)%Q -> (roundq a d <= roundq b d)%Q.
Proof.
  intros Hab. unfold roundq.
  pose proof (pow10q_pos d) as HP.
  apply Qmult_le_compat_r; [|apply Qinv_le_0_compat; lra].
  rewrite <- Zle_Qle. apply round_half_even_mono.
  apply Qmult_le_compat_r; lra.
Qed.

Lemma roundq_0 (d : Z) : (roundq 0 d == 0)%Q.
Proof.
  unfold roundq.
  assert (H0 : (0 * pow10q d == inject_Z 0)%Q) by ring.
  rewrite H0, round_half_even_Z.
  pose proof (pow10q_pos d). field. lra.
Qed.

Lemma roundq_nonneg (a : Q) (d : Z) : (0 <= a)%Q -> (0 <= roundq a d)%Q.
Proof. intros Ha. rewrite <- (roundq_0 d). now apply roundq_mono. Qed.

(** A value that is already a multiple of [10 ** -d] is kept. *)
Lemma roundq_idem (a : Q) (d : Z) : (roundq (roundq a d) d == roundq a d)%Q.
Proof.
  unfold roundq at 1 3.
  set (z := round_half_even (a * pow10q d)).
  pose proof (pow10q_pos d) as HP.
  assert (Hz : (roundq a d * pow10q d == inject_Z z)%Q).
  { unfold roundq. fold z. field. lra. }
  now rewrite Hz, round_half_even_Z.
Qed.

(** Above half a unit of the last place the rounded value is positive. *)
Lemma roundq_pos (a : Q) (d : Z) : (1 # 2 < a * pow10q d)%Q -> (0 < roundq a d)%Q.
Proof.
  intros Ha. unfold roundq.
  pose proof (pow10q_pos d) as HP.
  pose proof (round_half_even_near (a * pow10q d)) as [Hn _].
  assert (Hz : 0 < round_half_even (a * pow10q d)).
  { rewrite Zlt_Qlt. change (inject_Z 0) with 0%Q. lra. }
  apply Qlt_shift_div_l; [assumption|]. rewrite Zlt_Qlt in Hz.
  change (inject_Z 0) with 0%Q in Hz. lra.
Qed.

(** At or below half a unit of the last place a non-negative value rounds
    to zero (the tie goes to the even neighbour 0). *)
Lemma roundq_zero (a : Q) (d : Z) :
  (0 <= a)%Q -> (a * pow10q d <= 1 # 2)%Q -> (roundq a d == 0)%Q.
Proof.
  intros H0 Ha. unfold roundq.
  pose proof (pow10q_pos d) as HP.
  assert (Hx : (0 <= a * pow10q d)%Q) by (apply Qmult_le_0_compat; lra).
  assert (Hf : Qfloor (a * pow10q d) = 0).
  { pose proof (floor_bounds (a * pow10q d)) as [Hl Hu].
    assert (H1 : Qfloor (a * pow10q d) < 1).
    { rewrite Zlt_Qlt. change (inject_Z 1) with 1%Q. lra. }
    assert (H2 : -1 < Qfloor (a * pow10q d)).
    { rewrite Zlt_Qlt. change (inject_Z (-1)) with (-(1))%Q. lra. }
    lia. }
  assert (Hz : round_half_even (a * pow10q d) = 0).
  { unfold round_half_even. rewrite Hf.
    destruct (Qcompare_spec (a * pow10q d - inject_Z 0) (1 # 2)) as [He|Hl|Hg];
      [reflexivity | reflexivity | exfalso].
    change (inject_Z 0) with 0%Q in Hg. lra. }
  rewrite Hz. field. lra.
Qed.

(** Values more than one unit of the last place apart round to different
    values. *)
Lemma roundq_strict (a b : Q) (d : Z) :
  (1 < (a - b) * pow10q d)%Q -> (roundq b d < roundq a d)%Q.
Proof.
  intros Hab. unfold roundq.
  pose proof (pow10q_pos d) as HP.
  pose proof (round_half_even_near (a * pow10q d)) as [Ha _].
  pose proof (round_half_even_near (b * pow10q d)) as [_ Hb].
  apply Qmult_lt_compat_r; [apply Qinv_lt_0_compat; lra|].
  lra.
Qed.

(** The lot bought at a positive price is a positive multiple of ten. *)
Lemma lotq_multiple (u pr : Q) :
  (0 < u)%Q -> (0 < pr)%Q ->
  (lotq u pr == inject_Z (10 * Z.max 1 (Qfloor (u / pr / inject_Z 10))))%Q.
Proof.
  intros Hu Hp. unfold lotq.
  set (f := Qfloor (u / pr / inject_Z 10)).
  assert (Hf : 0 <= f).
  { change 0 with (Qfloor 0). apply Qfloor_resp_le.
    apply Qle_shift_div_l; [reflexivity|].
    apply Qle_shift_div_l; [assumption|]. lra. }
  cbn zeta. destruct (Qeq_bool (inject_Z f * inject_Z 10) (inject_Z 0)) eqn:E.
  - apply Qeq_bool_eq in E. rewrite <- inject_Z_mult in E. apply (proj1 (inject_Z_injective _ _)) in E.
    replace (Z.max 1 f) with 1 by lia. reflexivity.
  - apply Qeq_bool_neq in E. rewrite <- inject_Z_mult in *.
    assert (f <> 0) by (intros Hf0; apply E; rewrite Hf0; reflexivity).
    replace (Z.max 1 f) with f by lia. apply inject_Z_injective. lia.
Qed.

Lemma lotq_ge_10 (u pr : Q) : (0 < u)%Q -> (0 < pr)%Q -> (10 <= lotq u pr)%Q.
Proof.
  intros Hu Hp. rewrite (lotq_multiple u pr Hu Hp).
  change 10%Q with (inject_Z 10). rewrite <- Zle_Qle. lia.
Qed.

(** * The exact table of valid parameters *)

Section ExactGrid.
Variable p : GridParameters.
Hypothesis Hv : valid p.

Lemma valid_dp_pos : 0 < price_dp p.
Proof using Hv. destruct Hv as (_ & _ & _ & _ & _ & _ & _ & Hd). lia. Qed.

Lemma valid_intervals_pos : (0 < inject_Z (levels p - 1))%Q.
Proof using Hv.
  destruct Hv as (_ & Hl & _). change 0%Q with (inject_Z 0). rewrite <- Zlt_Qlt. lia.
Qed.

Lemma gapq_pos : (0 < gapq p)%Q.
Proof using Hv.
  unfold gapq. destruct Hv as (Hm & _).
  apply Qlt_shift_div_l; [apply valid_intervals_pos|]. lra.
Qed.

Lemma rawq_0 : (rawq p 0 == max_price p)%Q.
Proof. unfold rawq. change (inject_Z (Z.of_nat 0)) with 0%Q. ring. Qed.

Lemma rawq_S (i : nat) : (rawq p (S i) == rawq p i - gapq p)%Q.
Proof.
  unfold rawq. rewrite Nat2Z.inj_succ. unfold Z.succ. rewrite inject_Z_plus.
  change (inject_Z 1) with 1%Q. ring.
Qed.

Lemma rawq_last : (rawq p (Z.to_nat (levels p - 1)) == min_price p)%Q.
Proof using Hv.
  unfold rawq, gapq. pose proof valid_intervals_pos as Hi.
  destruct Hv as (_ & Hl & _). rewrite Z2Nat.id by lia. field. lra.
Qed.

Lemma rawq_antitone (i j : nat) : (i <= j)%nat -> (rawq p j <= rawq p i)%Q.
Proof using Hv.
  induction 1 as [|j Hle IH]; [lra|].
  rewrite rawq_S. pose proof gapq_pos. lra.
Qed.

Lemma rawq_ge_min (i : nat) : (i < Z.to_nat (levels p))%nat -> (min_price p <= rawq p i)%Q.
Proof using Hv.
  intros Hi. rewrite <- rawq_last. apply rawq_antitone. lia.
Qed.

Lemma priceq_antitone (i j : nat) : (i <= j)%nat -> (priceq p j <= priceq p i)%Q.
Proof using Hv. intros Hij. unfold priceq. apply roundq_mono. now apply rawq_antitone. Qed.

(** The call returns, with the gap and the columns of the function body. *)
Lemma compute_returns :
  exists df : DataFrame xq,
    compute p = Ok (df, Fin (gapq p)) /\
    rows df = Z.to_nat (levels p) /\
    Price df = grid_prices (Fin (max_price p)) (levels p)
                 (Fin (gapq p)) (price_dp p) /\
    Qty df = grid_qty (Fin (usdt_slice p)) (Price df) /\
    Acc_Qty df = cumsum (Qty df) /\
    Avg_Price df = zip_with_arr (fun s a => np_round (fdiv s a) (price_dp p))
                     (cumsum (zip_with_arr fmul (Qty df) (Price df))) (Acc_Qty df) /\
    Drawdown df = map (fun d => fneg (np_round d 2))
                    (draw_loop (Price df) (Acc_Qty df) (levels p)).
Proof using Hv.
  pose proof valid_intervals_pos as Hi.
  destruct Hv as (_ & Hl & _ & _ & _ & _ & Hlev & _).
  destruct (build_grid_returns (Fin (min_price p)) (Fin (max_price p)) (Fin (start_price p))
              (levels p) (Fin (usdt_slice p)) (leverage p) (price_dp p))
    as (df & Hrun & HL & HP & HQ & HA & HV & _ & HD & _); [lia|lia|].
  assert (Hg : fdiv (fsub (Fin (max_price p)) (Fin (min_price p))) (of_int (levels p - 1))
               = Fin (gapq p)).
  { simpl. now rewrite (Qeq_bool_false_pos _ Hi). }
  rewrite Hg in Hrun, HP.
  exists df. unfold compute. repeat split; try assumption.
  unfold rows. rewrite HL, arange_length. f_equal. lia.
Qed.

Lemma valid_usdt_pos : (0 < usdt_slice p)%Q.
Proof using Hv. now destruct Hv as (_ & _ & _ & _ & _ & Hu & _). Qed.

Lemma priceq_pos_before (i j : nat) :
  (j <= i)%nat -> (0 < priceq p i)%Q -> (0 < priceq p j)%Q.
Proof using Hv. intros Hji Hp. pose proof (priceq_antitone j i Hji). lra. Qed.

Lemma qtyq_ge_10 (i : nat) : (0 < priceq p i)%Q -> (10 <= qtyq p i)%Q.
Proof using Hv. intros Hp. apply lotq_ge_10; [apply valid_usdt_pos|assumption]. Qed.

Lemma accq_pos (i : nat) : (0 < priceq p i)%Q -> (0 < accq p i)%Q.
Proof using Hv.
  induction i as [|i IH]; intros Hp; simpl.
  - pose proof (qtyq_ge_10 0 Hp). lra.
  - pose proof (qtyq_ge_10 (S i) Hp).
    pose proof (IH (priceq_pos_before (S i) i ltac:(lia) Hp)). lra.
Qed.

(** The running cost lies between the position valued at the current
    price and the position valued at the first price. *)
Lemma costq_bounds (i : nat) :
  (0 < priceq p i)%Q ->
  (priceq p i * accq p i <= costq p i <= priceq p 0 * accq p i)%Q.
Proof using Hv.
  induction i as [|i IH]; intros Hp; simpl.
  - split; lra.
  - pose proof (priceq_pos_before (S i) i ltac:(lia) Hp) as Hpi.
    destruct (IH Hpi) as [Hlo Hhi].
    pose proof (accq_pos i Hpi) as Ha.
    pose proof (qtyq_ge_10 (S i) Hp) as Hq.
    pose proof (priceq_antitone i (S i) ltac:(lia)) as Hdec.
    pose proof (priceq_antitone 0 (S i) ltac:(lia)) as Hdec0.
    split; nra.
Qed.

Lemma drawq_nonneg (i : nat) : (0 < priceq p i)%Q -> (0 <= drawq p i)%Q.
Proof using Hv.
  induction i as [|i IH]; intros Hp; simpl.
  - change (inject_Z 0) with 0%Q. lra.
  - pose proof (priceq_pos_before (S i) i ltac:(lia) Hp) as Hpi.
    pose proof (IH Hpi). pose proof (accq_pos i Hpi).
    pose proof (priceq_antitone i (S i) ltac:(lia)). nra.
Qed.

(** The running average does not rise when a level at a lower price is
    added. *)
Lemma average_antitone (i : nat) :
  (0 < priceq p (S i))%Q ->
  (costq p (S i) / accq p (S i) <= costq p i / accq p i)%Q.
Proof using Hv.
  intros Hp.
  pose proof (priceq_pos_before (S i) i ltac:(lia) Hp) as Hpi.
  pose proof (accq_pos i Hpi) as Ha.
  pose proof (accq_pos (S i) Hp) as HaS.
  pose proof (qtyq_ge_10 (S i) Hp) as Hq.
  destruct (costq_bounds i Hpi) as [Hlo _].
  pose proof (priceq_antitone i (S i) ltac:(lia)) as Hdec.
  apply Qle_shift_div_l; [assumption|].
  assert (E : (costq p (S i) / accq p (S i) * accq p i
               == (costq p (S i) * accq p i) / accq p (S i))%Q) by (field; lra).
  rewrite E. apply Qle_shift_div_r; [assumption|].
  assert (Hstep : (priceq p (S i) * accq p i <= costq p i)%Q) by nra.
  simpl in *. nra.
Qed.

Lemma average_bounds (i : nat) :
  (0 < priceq p i)%Q ->
  (priceq p i <= costq p i / accq p i <= priceq p 0)%Q.
Proof using Hv.
  intros Hp. pose proof (accq_pos i Hp) as Ha.
  destruct (costq_bounds i Hp) as [Hlo Hhi].
  split.
  - apply Qle_shift_div_l; [assumption|lra].
  - apply Qle_shift_div_r; [assumption|lra].
Qed.

Section Columns.
Variable df : DataFrame xq.
Variable gap : xq.
Hypothesis Hrun : compute p = Ok (df, gap).

Lemma columns :
  gap = Fin (gapq p) /\
  rows df = Z.to_nat (levels p) /\
  Price df = grid_prices (Fin (max_price p)) (levels p)
               (Fin (gapq p)) (price_dp p) /\
  Qty df = grid_qty (Fin (usdt_slice p)) (Price df) /\
  Acc_Qty df = cumsum (Qty df) /\
  Avg_Price df = zip_with_arr (fun s a => np_round (fdiv s a) (price_dp p))
                   (cumsum (zip_with_arr fmul (Qty df) (Price df))) (Acc_Qty df) /\
  Drawdown df = map (fun d => fneg (np_round d 2))
                  (draw_loop (Price df) (Acc_Qty df) (levels p)).
Proof using Hv Hrun.
  destruct compute_returns as (df' & Hrun' & Hrest).
  rewrite Hrun in Hrun'. injection Hrun' as <- ->. split; [reflexivity|exact Hrest].
Qed.

Lemma price_length : length (Price df) = Z.to_nat (levels p).
Proof using Hv Hrun.
  destruct columns as (_ & _ & -> & _). apply grid_prices_length.
Qed.

Lemma price_cell (i : nat) :
  (i < Z.to_nat (levels p))%nat -> cell (Price df) i = Fin (priceq p i).
Proof using Hv Hrun.
  intros Hi. destruct columns as (_ & _ & -> & _). unfold cell.
  rewrite grid_prices_nth by assumption.
  change (fsub (Fin (max_price p)) (fmul (of_int (Z.of_nat i)) (Fin (gapq p))))
    with (Fin (rawq p i)).
  apply np_round_fin, valid_dp_pos.
Qed.

Lemma qty_length : length (Qty df) = Z.to_nat (levels p).
Proof using Hv Hrun.
  destruct columns as (_ & _ & _ & -> & _). rewrite grid_qty_length. apply price_length.
Qed.

(** The quantity of a row, whatever its price: the source expression. *)
Lemma qty_cell_raw (i : nat) :
  (i < Z.to_nat (levels p))%nat ->
  cell (Qty df) i
  = let q := xmul (xfloor_divide (xdiv (Fin (usdt_slice p)) (cell (Price df) i))
                                 (Fin (inject_Z 10))) (Fin (inject_Z 10)) in
    if xeqb q (Fin (inject_Z 0)) then Fin (inject_Z 10) else q.
Proof using Hv Hrun.
  intros Hi. destruct columns as (_ & _ & _ & -> & _). unfold cell.
  rewrite grid_qty_nth by (rewrite price_length; assumption). reflexivity.
Qed.

Lemma qty_cell (i : nat) :
  (i < Z.to_nat (levels p))%nat -> (0 < priceq p i)%Q ->
  cell (Qty df) i = Fin (qtyq p i).
Proof using Hv Hrun.
  intros Hi Hp. rewrite qty_cell_raw, price_cell by assumption.
  cbn zeta. unfold xdiv. rewrite (Qeq_bool_false_pos _ Hp).
  unfold qtyq, lotq.
  change (xmul (xfloor_divide (Fin (usdt_slice p / priceq p i)) (Fin (inject_Z 10)))
               (Fin (inject_Z 10)))
    with (Fin (inject_Z (Qfloor (usdt_slice p / priceq p i / inject_Z 10)) * inject_Z 10)).
  cbn [xeqb]. now destruct (Qeq_bool _ _).
Qed.

Lemma acc_cell (i : nat) :
  (i < Z.to_nat (levels p))%nat -> (0 < priceq p i)%Q ->
  cell (Acc_Qty df) i = Fin (accq p i).
Proof using Hv Hrun.
  destruct columns as (_ & _ & _ & _ & HA & _).
  pose proof qty_length as Lq.
  induction i as [|i IH]; intros Hi Hp; unfold cell; rewrite HA.
  - rewrite cumsum_nth_0. apply (qty_cell 0 Hi Hp).
  - rewrite cumsum_nth_S by lia. rewrite <- HA.
    fold (cell (Acc_Qty df) i). fold (cell (Qty df) (S i)).
    rewrite IH by first [lia | apply (priceq_pos_before (S i)); [lia|assumption]].
    rewrite (qty_cell (S i) Hi Hp). reflexivity.
Qed.

Lemma cost_cell (i : nat) :
  (i < Z.to_nat (levels p))%nat -> (0 < priceq p i)%Q ->
  cell (cumsum (zip_with_arr fmul (Qty df) (Price df))) i = Fin (costq p i).
Proof using Hv Hrun.
  pose proof qty_length as Lq.
  pose proof price_length as Lp.
  assert (Hterm : forall j, (j < Z.to_nat (levels p))%nat -> (0 < priceq p j)%Q ->
            nth j (zip_with_arr fmul (Qty df) (Price df)) (Fin 0)
            = Fin (qtyq p j * priceq p j)).
  { intros j Hj Hpj. rewrite zip_with_arr_nth by lia.
    fold (cell (Qty df) j). fold (cell (Price df) j).
    rewrite (qty_cell j Hj Hpj), (price_cell j Hj).
    reflexivity. }
  induction i as [|i IH]; intros Hi Hp; unfold cell.
  - rewrite cumsum_nth_0. now apply Hterm.
  - rewrite cumsum_nth_S by (rewrite zip_with_arr_length; lia).
    fold (cell (cumsum (zip_with_arr fmul (Qty df) (Price df))) i).
    rewrite IH by first [lia | apply (priceq_pos_before (S i)); [lia|assumption]].
    rewrite Hterm by assumption. reflexivity.
Qed.

Lemma avg_price_cell (i : nat) :
  (i < Z.to_nat (levels p))%nat -> (0 < priceq p i)%Q ->
  cell (Avg_Price df) i = Fin (roundq (costq p i / accq p i) (price_dp p)).
Proof using Hv Hrun.
  intros Hi Hp.
  destruct columns as (_ & _ & _ & _ & HA & HV & _).
  pose proof qty_length as Lq.
  pose proof price_length as Lp.
  unfold cell. rewrite HV.
  rewrite zip_with_arr_nth
    by (rewrite ?cumsum_length, ?zip_with_arr_length, ?HA, ?cumsum_length; lia).
  fold (cell (cumsum (zip_with_arr fmul (Qty df) (Price df))) i).
  fold (cell (Acc_Qty df) i).
  rewrite cost_cell, acc_cell by assumption.
  cbn [fdiv xq_float64 xdiv]. rewrite (Qeq_bool_false_pos _ (accq_pos i Hp)).
  apply np_round_fin, valid_dp_pos.
Qed.

Lemma draw_cell (i : nat) :
  (i < Z.to_nat (levels p))%nat -> (0 < priceq p i)%Q ->
  cell (draw_loop (Price df) (Acc_Qty df) (levels p)) i = Fin (drawq p i).
Proof using Hv Hrun.
  pose proof price_length as Lp.
  assert (Hl : 1 <= levels p) by (destruct Hv as (_ & ? & _); lia).
  destruct (draw_loop_spec (Price df) (Acc_Qty df) (levels p) Hl Lp) as (_ & H0 & Hrec).
  induction i as [|i IH]; intros Hi Hp; unfold cell.
  - exact H0.
  - pose proof (priceq_pos_before (S i) i ltac:(lia) Hp) as Hpi.
    change (Fin 0) with (@of_int xq _ 0). rewrite Hrec by lia.
    replace (S i - 1)%nat with i by lia.
    change (@of_int xq _ 0) with (Fin 0).
    fold (cell (draw_loop (Price df) (Acc_Qty df) (levels p)) i).
    fold (cell (Price df) i). fold (cell (Price df) (S i)). fold (cell (Acc_Qty df) i).
    rewrite IH, !price_cell, acc_cell by (assumption || lia).
    reflexivity.
Qed.

Lemma drawdown_cell (i : nat) :
  (i < Z.to_nat (levels p))%nat -> (0 < priceq p i)%Q ->
  cell (Drawdown df) i = Fin (- roundq (drawq p i) 2).
Proof using Hv Hrun.
  intros Hi Hp.
  destruct columns as (_ & _ & _ & _ & _ & _ & HD).
  pose proof price_length as Lp.
  assert (Hl : 1 <= levels p) by (destruct Hv as (_ & ? & _); lia).
  destruct (draw_loop_spec (Price df) (Acc_Qty df) (levels p) Hl Lp) as (Ld & _).
  unfold cell. rewrite HD.
  set (g := fun d : xq => fneg (np_round d 2)).
  rewrite (nth_indep _ (Fin 0) (g (Fin 0))) by (rewrite length_map; lia).
  rewrite (map_nth g). fold (cell (draw_loop (Price df) (Acc_Qty df) (levels p)) i).
  rewrite draw_cell by assumption. unfold g.
  now rewrite np_round_fin by lia.
Qed.

End Columns.
End ExactGrid.

(** * Properties of the grid and of the template store *)

(** ** Drawdown is a running accumulation *)

Section Drawdown.
Context {F : Type} `{Float64 F}.


End Drawdown.


(** ** Reading the exact table *)

Lemma xle_fin (a b : Q) : xle (Fin a) (Fin b) <-> (a <= b)%Q.
Proof. unfold xle. simpl. apply Qle_bool_iff. Qed.

Lemma xlt_fin (a b : Q) : xlt (Fin a) (Fin b) <-> (a < b)%Q.
Proof.
  unfold xlt. simpl. rewrite negb_true_iff.
  destruct (Qle_bool b a) eqn:E.
  - apply Qle_bool_iff in E. split; [discriminate|lra].
  - split; [intros _|reflexivity].
    apply Qnot_le_lt. intros Hle. apply Qle_bool_iff in Hle. congruence.
Qed.

Lemma Qdiv_lt_mult (a b c : Q) : (0 < c)%Q -> (a / c < b)%Q -> (a < b * c)%Q.
Proof.
  intros Hc H. destruct (Qlt_le_dec a (b * c)) as [Hlt|Hge]; [exact Hlt|].
  exfalso. apply (Qle_shift_div_l _ _ _ Hc) in Hge. lra.
Qed.

Lemma Qle_div_mult (a b c : Q) : (0 < c)%Q -> (a <= b / c)%Q -> (a * c <= b)%Q.
Proof.
  intros Hc H. destruct (Qlt_le_dec b (a * c)) as [Hlt|Hge]; [|exact Hge].
  exfalso. apply (Qlt_shift_div_r _ _ _ Hc) in Hlt. lra.
Qed.

Lemma ten_power_pos (d : Z) : 0 <= d -> (0 < inject_Z (10 ^ d))%Q.
Proof. intros Hd. rewrite <- pow10q_value by assumption. apply pow10q_pos. Qed.

Lemma prices_positive_cell (p : GridParameters) (i : nat) :
  valid p -> prices_positive p = true -> (i < Z.to_nat (levels p))%nat ->
  (0 < priceq p i)%Q.
Proof.
  intros Hv Hpos Hi. unfold prices_positive in Hpos.
  destruct (compute p) as [[df gap]|e] eqn:Hrun; [|discriminate].
  rewrite forallb_forall in Hpos.
  specialize (Hpos (cell (Price df) i)).
  rewrite (price_cell p Hv df gap Hrun i Hi) in Hpos.
  apply xlt_fin. apply Hpos.
  rewrite <- (price_cell p Hv df gap Hrun i Hi). unfold cell.
  apply nth_In. now rewrite (price_length p Hv df gap Hrun).
Qed.

Ltac valid_by_computation :=
  unfold valid; cbn; repeat split; first [reflexivity | lia].

(** ** Row count and end prices *)




(** ** Order of the prices *)



(** The bound on the gap is strict: max_price=0.025 and min_price=0.015 at
    two decimals are one unit apart, and both round to 0.02. *)
Example unit_gap_ties_collapse :
  valid unit_gap /\
  match compute unit_gap with
  | Ok (df, g) =>
      same g (Fin 0.01) /\
      same (cell (Price df) 0) (Fin 0.02) /\ same (cell (Price df) 1) (Fin 0.02)
  | Raise _ => False
  end.
Proof. split; [valid_by_computation|]. vm_compute. repeat split. Qed.


(** ** Quantities *)




(** ** Sign of the drawdown *)




(** ** Division by a zero price *)



(** ** The average price *)

Lemma priceq_rounded (p : GridParameters) (i : nat) :
  (roundq (priceq p i) (price_dp p) == priceq p i)%Q.
Proof. unfold priceq. apply roundq_idem. Qed.



(** ** The price range is checked by the caller only *)



(** ** Templates *)

Section Templates.
Context {F : Type}.

Lemma template_to_kwargs_of_inputs (w : Inputs F) :
  template_to_kwargs (template_of_inputs w) = Ok (kwargs_of_inputs w).
Proof.
  unfold template_to_kwargs, template_of_inputs, getitem, get_or.
  repeat (rewrite ?lookup_insert_eq; rewrite ?lookup_insert_ne by done; cbn [py_bind]).
  reflexivity.
Qed.

(** C8.  For every state of the template file, every set of inputs and
    every non-empty name: after the save button has stored the inputs
    under that name, the file holds the dictionary in memory, and loading
    the templates, taking the record of that name and converting it gives
    back the keyword arguments of the original inputs, all eight of them,
    price_dp and gap_dp included.  The stored record always has both
    display fields; on any record the converted price_dp and gap_dp are
    the stored ones when present and 6 and 8 when absent. *)
Theorem template_round_trip (file : template_file F) (w : Inputs F) (name : string) :
  name <> "" ->
  let saved := save_template (load_templates file) file true name w in
  snd saved = save_templates (fst saved) /\
  (d <<- getitem (load_templates (snd saved)) name ;; template_to_kwargs d)
  = Ok (kwargs_of_inputs w) /\
  template_of_inputs w !! "price_dp" = Some (PyInt (n_price_dp w)) /\
  template_of_inputs w !! "gap_dp" = Some (PyInt (gap_dp w)) /\
  (forall d kw : gmap string (pyval F),
     template_to_kwargs d = Ok kw ->
     kw !! "price_dp" = Some (get_or d "price_dp" (PyInt 6)) /\
     kw !! "gap_dp" = Some (get_or d "gap_dp" (PyInt 8))).
Proof.
  intros Hname. cbn zeta. unfold save_template.
  apply String.eqb_neq in Hname. rewrite Hname. cbn [andb negb fst snd].
  split; [reflexivity|]. split; [|split; [|split]].
  - unfold save_templates, load_templates at 1, getitem.
    rewrite lookup_insert_eq. cbn [py_bind]. apply template_to_kwargs_of_inputs.
  - unfold template_of_inputs.
    rewrite ?lookup_insert_eq; rewrite ?lookup_insert_ne by done.
    repeat (rewrite lookup_insert_ne by done). now rewrite lookup_insert_eq.
  - unfold template_of_inputs.
    repeat (rewrite lookup_insert_ne by done). now rewrite lookup_insert_eq.
  - intros d kw Hkw. unfold template_to_kwargs, getitem in Hkw.
    destruct (d !! "max_price"); [|discriminate].
    destruct (d !! "min_price"); [|discriminate].
    destruct (d !! "start_price"); [|discriminate].
    destruct (d !! "levels"); [|discriminate].
    destruct (d !! "usdt_slice"); [|discriminate].
    destruct (d !! "leverage"); [|discriminate].
    cbn [py_bind] in Hkw. injection Hkw as <-.
    split; repeat (rewrite lookup_insert_ne by done); now rewrite lookup_insert_eq.
Qed.

End Templates.

Lemma template_round_trip_witness :
  "base"%string <> ""%string /\
  let saved := save_template (load_templates Absent) Absent true "base" default_inputs in
  snd saved = save_templates (fst saved) /\
  (d <<- getitem (load_templates (snd saved)) "base" ;; template_to_kwargs d)
  = Ok (kwargs_of_inputs default_inputs) /\
  template_of_inputs default_inputs !! "price_dp" = Some (PyInt 6) /\
  template_of_inputs default_inputs !! "gap_dp" = Some (PyInt 8) /\
  (forall d kw : gmap string (pyval xq),
     template_to_kwargs d = Ok kw ->
     kw !! "price_dp" = Some (get_or d "price_dp" (PyInt 6)) /\
     kw !! "gap_dp" = Some (get_or d "gap_dp" (PyInt 8))).
Proof.
  assert (Hname : "base"%string <> ""%string) by discriminate.
  split; [exact Hname|].
  exact (template_round_trip Absent default_inputs "base" Hname).
Defined.

(** ** The worked scenario *)

(** C6. On the input min_price=1.0, max_price=7.0, start_price=2.7916,
    levels=124, usdt_slice=203.252, leverage=50, price_dp=6, [build_grid]
    returns raw_gap = 6.0/123, row 1 Price = 7.0, row 124 Price = 1.0,
    Margin per lvl = 4.07 in each of the 124 rows, Acc Margin = 504.68 and
    Nominal = 25203.25 in row 124: bit for bit in binary64 (the expected
    values being the doubles of the decimal literals), and as exact
    rationals in exact arithmetic. *)
Theorem scenario_values :
  scenario_holds eq PrimFloat.nan scenario64
    (Binary64.of_Z 6 / Binary64.of_Z 123)%float
    (Binary64.of_Z 7) (Binary64.of_Z 1)
    (Binary64.decimal 407 2) (Binary64.decimal 50468 2) (Binary64.decimal 2520325 2)
  /\
  scenario_holds Exact.same Exact.NaN scenario_exact
    (Exact.Fin (6 / 123)) (Exact.Fin 7) (Exact.Fin 1)
    (Exact.Fin 4.07) (Exact.Fin 504.68) (Exact.Fin 25203.25).
Proof.
  split.
  - vm_compute. repeat split; repeat constructor.
  - vm_compute. repeat split; repeat constructor.
Qed.

(** * Beyond the grid invariants: further properties of the program *)

Ltac with_valid p :=
  let Hv := fresh "Hv" in
  assert (Hv : valid p) by valid_by_computation; split; [exact Hv|].

(** * Further properties of the template store *)

Section TemplateStore.
Context {F : Type}.

(** X1.  When the template file is absent or unreadable, a save with a
    non-empty name leaves a file that holds exactly the saved template:
    whatever the unreadable file held is gone. *)
Theorem save_replaces_unreadable_file (file : template_file F) (w : Inputs F)
    (name : string) :
  file = Absent \/ file = Malformed -> name <> "" ->
  save_template (load_templates file) file true name w
  = ({[ name := template_of_inputs w ]}, Document {[ name := template_of_inputs w ]}).
Proof.
  intros Hfile Hname. unfold save_template.
  apply String.eqb_neq in Hname. rewrite Hname. cbn [andb negb].
  assert (Hload : load_templates file = ∅) by (destruct Hfile; subst; reflexivity).
  rewrite Hload, insert_empty. reflexivity.
Qed.

(** X2.  Without a click, or with an empty name, the save step changes
    neither the templates in memory nor the file. *)
Theorem save_needs_click_and_name (tpls : gmap string (gmap string (pyval F)))
    (file : template_file F) (clicked : bool) (name : string) (w : Inputs F) :
  clicked = false \/ name = "" ->
  save_template tpls file clicked name w = (tpls, file).
Proof.
  intros [-> | ->]; unfold save_template; [reflexivity|].
  now rewrite andb_false_r.
Qed.

(** X3.  A save touches one name only: after it, the file read back has
    the saved record under the saved name, every other name has the
    record it had before, and the names are the old ones and the new one. *)
Theorem save_keeps_other_templates (file : template_file F) (w : Inputs F)
    (name : string) :
  name <> "" ->
  let after := load_templates (snd (save_template (load_templates file) file true name w)) in
  after !! name = Some (template_of_inputs w) /\
  (forall other : string, other <> name -> after !! other = load_templates file !! other) /\
  dom after = {[ name ]} ∪ dom (load_templates file).
Proof.
  intros Hname. cbn zeta. unfold save_template.
  apply String.eqb_neq in Hname. rewrite Hname. cbn [andb negb snd].
  unfold save_templates, load_templates at 1 2 3. split; [|split].
  - apply lookup_insert_eq.
  - intros other Hother. now apply lookup_insert_ne.
  - apply dom_insert_L.
Qed.

(** X4.  The last save under a name wins: saving one set of inputs and
    then another under the same name leaves the file that saving the
    second alone leaves. *)
Theorem last_save_wins (file : template_file F) (w1 w2 : Inputs F) (name : string) :
  name <> "" ->
  let first := save_template (load_templates file) file true name w1 in
  save_template (load_templates (snd first)) (snd first) true name w2
  = save_template (load_templates file) file true name w2.
Proof.
  intros Hname. cbn zeta. unfold save_template.
  apply String.eqb_neq in Hname. rewrite Hname. cbn [andb negb snd].
  unfold save_templates. cbn [load_templates].
  now rewrite !insert_insert_eq.
Qed.

End TemplateStore.

Lemma save_replaces_unreadable_file_witness :
  (@Malformed xq = Absent \/ @Malformed xq = Malformed) /\ "base"%string <> ""%string /\
  save_template (load_templates Malformed) Malformed true "base" default_inputs
  = ({[ "base"%string := template_of_inputs default_inputs ]},
     Document {[ "base"%string := template_of_inputs default_inputs ]}).
Proof.
  assert (Hfile : @Malformed xq = Absent \/ @Malformed xq = Malformed) by (right; reflexivity).
  assert (Hname : "base"%string <> ""%string) by discriminate.
  split; [exact Hfile|]. split; [exact Hname|].
  exact (save_replaces_unreadable_file Malformed default_inputs "base" Hfile Hname).
Defined.

Lemma save_needs_click_and_name_witness :
  (true = false \/ ""%string = ""%string) /\
  save_template ∅ (@Absent xq) true "" default_inputs = (∅, Absent).
Proof.
  assert (Hor : true = false \/ ""%string = ""%string) by (right; reflexivity).
  split; [exact Hor|].
  exact (save_needs_click_and_name ∅ Absent true "" default_inputs Hor).
Defined.

Lemma save_keeps_other_templates_witness :
  "base"%string <> ""%string /\
  let after := load_templates (snd (save_template (load_templates Absent) Absent true
                                                  "base" default_inputs)) in
  after !! "base"%string = Some (template_of_inputs default_inputs) /\
  (forall other : string,
     other <> "base"%string -> after !! other = load_templates Absent !! other) /\
  dom after = {[ "base"%string ]} ∪ dom (load_templates (@Absent xq)).
Proof.
  assert (Hname : "base"%string <> ""%string) by discriminate.
  split; [exact Hname|].
  exact (save_keeps_other_templates Absent default_inputs "base" Hname).
Defined.

Lemma last_save_wins_witness :
  "base"%string <> ""%string /\
  let first := save_template (load_templates Absent) Absent true "base" inverted_inputs in
  save_template (load_templates (snd first)) (snd first) true "base" default_inputs
  = save_template (load_templates Absent) Absent true "base" default_inputs.
Proof.
  assert (Hname : "base"%string <> ""%string) by discriminate.
  split; [exact Hname|].
  exact (last_save_wins Absent inverted_inputs default_inputs "base" Hname).
Defined.

Section TemplateConversion.
Context {F : Type}.

(** X5.  [template_to_kwargs] raises exactly when one of the six fields
    it reads with [d[...]] is missing, and then the KeyError names the
    first missing one in the order max_price, min_price, start_price,
    levels, usdt_slice, leverage; a record with all six is converted,
    whether or not it has price_dp and gap_dp. *)
Theorem template_to_kwargs_key_error (d : gmap string (pyval F)) :
  match find (field_missing d) required_fields with
  | Some key => template_to_kwargs d = Raise (KeyError key)
  | None => exists kw, template_to_kwargs d = Ok kw
  end.
Proof.
  unfold template_to_kwargs, getitem, required_fields, field_missing. cbn [find].
  destruct (d !! "max_price"); [|reflexivity].
  destruct (d !! "min_price"); [|reflexivity].
  destruct (d !! "start_price"); [|reflexivity].
  destruct (d !! "levels"); [|reflexivity].
  destruct (d !! "usdt_slice"); [|reflexivity].
  destruct (d !! "leverage"); [|reflexivity].
  cbn [py_bind]. eexists. reflexivity.
Qed.

(** X6.  A converted record has exactly the eight keyword arguments, and
    the conversion looks at nothing but the eight fields it reads: adding
    or changing any other field of the record does not change the result. *)
Theorem template_to_kwargs_reads_eight_fields (d kw : gmap string (pyval F)) :
  template_to_kwargs d = Ok kw ->
  dom kw = kwargs_names /\
  forall (key : string) (v : pyval F),
    key ∉ template_fields -> template_to_kwargs (<[key := v]> d) = Ok kw.
Proof.
  intros Hkw. split.
  - unfold template_to_kwargs, getitem in Hkw.
    destruct (d !! "max_price"); [|discriminate].
    destruct (d !! "min_price"); [|discriminate].
    destruct (d !! "start_price"); [|discriminate].
    destruct (d !! "levels"); [|discriminate].
    destruct (d !! "usdt_slice"); [|discriminate].
    destruct (d !! "leverage"); [|discriminate].
    cbn [py_bind] in Hkw. injection Hkw as <-.
    rewrite !dom_insert_L, dom_empty_L. unfold kwargs_names. cbn [list_to_set foldr].
    set_solver.
  - intros key v Hkey. rewrite <- Hkw.
    unfold template_fields, required_fields in Hkey. cbn [app] in Hkey.
    rewrite !not_elem_of_cons in Hkey.
    destruct Hkey as (H1 & H2 & H3 & H4 & H5 & H6 & H7 & H8 & _).
    unfold template_to_kwargs, getitem, get_or.
    now rewrite !lookup_insert_ne by congruence.
Qed.

End TemplateConversion.

Lemma template_to_kwargs_reads_eight_fields_witness :
  template_to_kwargs (template_of_inputs default_inputs) = Ok (kwargs_of_inputs default_inputs) /\
  dom (kwargs_of_inputs default_inputs) = kwargs_names /\
  forall (key : string) (v : pyval xq),
    key ∉ template_fields ->
    template_to_kwargs (<[key := v]> (template_of_inputs default_inputs))
    = Ok (kwargs_of_inputs default_inputs).
Proof.
  assert (Hkw : template_to_kwargs (template_of_inputs default_inputs)
                = Ok (kwargs_of_inputs default_inputs))
    by apply template_to_kwargs_of_inputs.
  split; [exact Hkw|].
  exact (template_to_kwargs_reads_eight_fields _ _ Hkw).
Defined.

Section Sidebar.
Context {F : Type} `{Float64 F}.

(** X7.  "<None>" always means no template: choosing it gives empty
    keyword arguments even when a template of that name is stored, so a
    template saved under the name "<None>" is in the file but is never
    converted.  Any other entry of the select box is a stored name, and
    choosing it converts the record stored under it, with no KeyError for
    the name. *)
Theorem select_box_entries (tpls : gmap string (gmap string (pyval F))) :
  (forall (file : template_file F) (w : Inputs F),
     let after := load_templates (snd (save_template (load_templates file) file true
                                                     "<None>" w)) in
     after !! "<None>"%string = Some (template_of_inputs w) /\
     selected_kwargs after "<None>" = Ok ∅) /\
  (forall selected : string,
     selected ∈ tpl_options tpls -> selected <> "<None>"%string ->
     exists d, tpls !! selected = Some d /\
               selected_kwargs tpls selected = template_to_kwargs d).
Proof.
  split.
  - intros file w. cbn zeta. split; [|reflexivity].
    cbn [save_template andb negb String.eqb snd Ascii.eqb Bool.eqb].
    unfold save_templates. cbn [load_templates]. apply lookup_insert_eq.
  - intros selected Hin Hne. unfold tpl_options in Hin.
    apply elem_of_union in Hin as [Hin|Hin]; [apply elem_of_singleton in Hin; congruence|].
    apply elem_of_dom in Hin as [d Hd]. exists d. split; [exact Hd|].
    unfold selected_kwargs, getitem.
    apply String.eqb_neq in Hne. rewrite Hne, Hd. reflexivity.
Qed.

(** X8.  Round trip through the page: inputs saved under a name that is
    neither empty nor "<None>" are an entry of the select box after the
    file is read back, and choosing that entry makes every one of the
    eight number inputs start from the saved value. *)
Theorem saved_template_refills_inputs (file : template_file F) (w : Inputs F)
    (name : string) :
  name <> "" -> name <> "<None>"%string ->
  let after := load_templates (snd (save_template (load_templates file) file true name w)) in
  name ∈ tpl_options after /\
  exists kwargs, selected_kwargs after name = Ok kwargs /\
                 input_values kwargs = values_of_inputs w.
Proof.
  intros Hname Hnone. cbn zeta. unfold save_template.
  apply String.eqb_neq in Hname. rewrite Hname. cbn [andb negb snd].
  unfold save_templates. cbn [load_templates]. split.
  - unfold tpl_options. rewrite dom_insert_L. set_solver.
  - exists (kwargs_of_inputs w). split.
    + unfold selected_kwargs, getitem. apply String.eqb_neq in Hnone.
      rewrite Hnone, lookup_insert_eq. cbn [negb py_bind].
      apply template_to_kwargs_of_inputs.
    + unfold input_values, values_of_inputs, kwargs_of_inputs, get_or.
      f_equal;
        repeat (rewrite lookup_insert_ne by done); now rewrite lookup_insert_eq.
Qed.

End Sidebar.

Lemma saved_template_refills_inputs_witness :
  "base"%string <> ""%string /\ "base"%string <> "<None>"%string /\
  let after := load_templates (snd (save_template (load_templates Absent) Absent true
                                                  "base" default_inputs)) in
  "base"%string ∈ tpl_options after /\
  exists kwargs, selected_kwargs after "base" = Ok kwargs /\
                 input_values kwargs = values_of_inputs default_inputs.
Proof.
  assert (Hname : "base"%string <> ""%string) by discriminate.
  assert (Hnone : "base"%string <> "<None>"%string) by discriminate.
  split; [exact Hname|]. split; [exact Hnone|].
  exact (saved_template_refills_inputs Absent default_inputs "base" Hname Hnone).
Defined.

(** * Further properties of the grid *)

Section GridErrors.
Context {F : Type} `{Float64 F}.


(** X10.  Whenever [build_grid] returns, the eleven columns of the table
    all have [levels] entries (so the frame is never built from columns
    of different lengths), the Level column counts 1, 2, ..., levels, and
    the PnL column is the Unrealised column. *)
Theorem table_columns_aligned (min_px max_px start_px usdt_slice : F)
    (levels leverage price_dp : Z) (df : DataFrame F) (gap : F) :
  1 <= levels ->
  build_grid min_px max_px start_px levels usdt_slice leverage price_dp = Ok (df, gap) ->
  Forall (fun n => n = Z.to_nat levels)
    [length (Level df); length (Price df); length (Qty df); length (Acc_Qty df);
     length (Avg_Price df); length (Unrealised df); length (Drawdown df);
     length (PnL df); length (Margin_per_lvl df); length (Acc_Margin df);
     length (Nominal df)] /\
  (forall i, (i < Z.to_nat levels)%nat -> nth i (Level df) 0 = Z.of_nat i + 1) /\
  PnL df = Unrealised df.
Proof.
  intros Hl Hrun.
  destruct (build_grid_shape _ _ _ _ _ _ _ _ _ Hl Hrun)
    as (L0 & L1 & L2 & L3 & L4 & L5 & L6 & L7 & L8 & L9 & L10).
  assert (Hl1 : levels <> 1).
  { intros ->. unfold build_grid, py_truediv in Hrun. simpl in Hrun. discriminate. }
  assert (Hv : leverage <> 0).
  { intros ->. unfold build_grid, py_truediv in Hrun.
    destruct (levels - 1 =? 0); simpl in Hrun; discriminate. }
  destruct (build_grid_returns min_px max_px start_px levels usdt_slice leverage price_dp Hl1 Hv)
    as (df' & Hrun' & HL & _ & _ & _ & _ & _ & _ & HN & _).
  rewrite Hrun in Hrun'. injection Hrun' as <- _.
  split; [|split].
  - unfold rows in L0. repeat constructor; assumption.
  - intros i Hi. rewrite HL, arange_nth by lia. lia.
  - exact HN.
Qed.

End GridErrors.


Lemma table_columns_aligned_witness :
  1 <= 2 /\
  exists (df : DataFrame xq) (gap : xq),
    compute two_levels = Ok (df, gap) /\
    Forall (fun n => n = 2%nat)
      [length (Level df); length (Price df); length (Qty df); length (Acc_Qty df);
       length (Avg_Price df); length (Unrealised df); length (Drawdown df);
       length (PnL df); length (Margin_per_lvl df); length (Acc_Margin df);
       length (Nominal df)] /\
    (forall i, (i < 2)%nat -> nth i (Level df) 0 = Z.of_nat i + 1) /\
    PnL df = Unrealised df.
Proof.
  split; [lia|].
  destruct (compute two_levels) as [[df gap]|e] eqn:Hrun; [|discriminate Hrun].
  exists df, gap. split; [reflexivity|].
  apply (table_columns_aligned (Fin 1) (Fin 2) (Fin 1.5) (Fin 100) 2 10 2 df gap);
    [lia|exact Hrun].
Defined.

(** * Further facts on rounding and on the exact table *)

Lemma roundq_near (a : Q) (d : Z) :
  (a - (1 # 2) / pow10q d <= roundq a d <= a + (1 # 2) / pow10q d)%Q.
Proof.
  pose proof (pow10q_pos d) as HP.
  pose proof (round_half_even_near (a * pow10q d)) as [Hlo Hhi].
  unfold roundq. split.
  - apply Qle_shift_div_l; [exact HP|].
    assert (E : ((a - (1 # 2) / pow10q d) * pow10q d == a * pow10q d - (1 # 2))%Q)
      by (field; lra).
    rewrite E. exact Hlo.
  - apply Qle_shift_div_r; [exact HP|].
    assert (E : ((a + (1 # 2) / pow10q d) * pow10q d == a * pow10q d + (1 # 2))%Q)
      by (field; lra).
    rewrite E. exact Hhi.
Qed.

(** A multiple of [10 ** -d] is kept by the rounding. *)
Lemma roundq_grid (a : Q) (d : Z) (z : Z) :
  (a * pow10q d == inject_Z z)%Q -> (roundq a d == a)%Q.
Proof.
  intros Hz. unfold roundq. rewrite Hz, round_half_even_Z, <- Hz.
  pose proof (pow10q_pos d). field. lra.
Qed.

Lemma roundq_on_grid (a : Q) (d : Z) :
  (roundq a d * pow10q d == inject_Z (round_half_even (a * pow10q d)))%Q.
Proof. unfold roundq. pose proof (pow10q_pos d). field. lra. Qed.

(** A lower price buys at least as large a lot. *)
Lemma lotq_antitone (u p1 p2 : Q) :
  (0 < u)%Q -> (0 < p1)%Q -> (p1 <= p2)%Q -> (lotq u p2 <= lotq u p1)%Q.
Proof.
  intros Hu H1 H12.
  assert (H2 : (0 < p2)%Q) by lra.
  rewrite (lotq_multiple u p1 Hu H1), (lotq_multiple u p2 Hu H2).
  rewrite <- Zle_Qle.
  assert (Hf : Qfloor (u / p2 / inject_Z 10) <= Qfloor (u / p1 / inject_Z 10)).
  { apply Qfloor_resp_le.
    apply Qmult_le_compat_r; [|discriminate].
    apply Qle_shift_div_l; [exact H1|].
    assert (E : (u / p2 * p1 == u * (p1 / p2))%Q) by (field; lra).
    rewrite E.
    assert (H1' : (p1 / p2 <= 1)%Q) by (apply Qle_shift_div_r; lra).
    nra. }
  lia.
Qed.

(** What a lot costs: no more than the slice when the slice buys ten
    units or more, and less than ten units short of it. *)
Lemma lotq_cost (u pr : Q) :
  (0 < u)%Q -> (0 < pr)%Q ->
  ((10 * pr <= u)%Q -> (u - 10 * pr < lotq u pr * pr <= u)%Q) /\
  ((u < 10 * pr)%Q -> (lotq u pr == 10)%Q).
Proof.
  intros Hu Hp.
  pose proof (lotq_multiple u pr Hu Hp) as Hlot.
  set (x := (u / pr / inject_Z 10)%Q) in *.
  pose proof (floor_bounds x) as [Hlo Hhi].
  assert (Hx : (x * (10 * pr) == u)%Q).
  { unfold x. change (inject_Z 10) with 10%Q. field. lra. }
  split.
  - intros Hge.
    assert (H1 : (1 <= x)%Q).
    { apply Qnot_lt_le. intros Hlt. nra. }
    assert (Hf : 1 <= Qfloor x).
    { change 1 with (Qfloor (inject_Z 1)). apply Qfloor_resp_le. exact H1. }
    replace (Z.max 1 (Qfloor x)) with (Qfloor x) in Hlot by lia.
    rewrite Hlot, inject_Z_mult. change (inject_Z 10) with 10%Q.
    split; nra.
  - intros Hlt.
    assert (H1 : (x < 1)%Q).
    { apply Qnot_le_lt. intros Hge. nra. }
    assert (Hf : Qfloor x < 1).
    { rewrite Zlt_Qlt. change (inject_Z 1) with 1%Q. lra. }
    replace (Z.max 1 (Qfloor x)) with 1 in Hlot by lia.
    rewrite Hlot. reflexivity.
Qed.

Section MoreColumns.
Variable p : GridParameters.
Hypothesis Hv : valid p.
Variable df : DataFrame xq.
Variable gap : xq.
Hypothesis Hrun : compute p = Ok (df, gap).

Lemma other_columns :
  Level df = arange 1 (levels p + 1) /\
  Unrealised df = zip_with_arr (fun pr a => np_round (fmul (fsub pr (Fin (start_price p))) a) 2)
                    (Price df) (Acc_Qty df) /\
  PnL df = Unrealised df /\
  Margin_per_lvl df = map (fun _ => Fin (marginq p)) (Level df) /\
  Acc_Margin df = map (fun k => Fin (roundq (marginq p * inject_Z k) 2)) (Level df) /\
  Nominal df = map (fun k => Fin (roundq (usdt_slice p * inject_Z k) 2)) (Level df).
Proof using Hv Hrun.
  pose proof Hv as (_ & Hl & _ & _ & _ & _ & Hlev & _).
  destruct (build_grid_returns (Fin (min_price p)) (Fin (max_price p)) (Fin (start_price p))
              (levels p) (Fin (usdt_slice p)) (leverage p) (price_dp p))
    as (df' & Hrun' & HL & _ & _ & _ & _ & HU & _ & HN & HM & HAM & HNo); [lia|lia|].
  unfold compute in Hrun. rewrite Hrun in Hrun'. injection Hrun' as <- _.
  assert (Hm : np_round (fdiv (Fin (usdt_slice p)) (of_int (leverage p))) 2 = Fin (marginq p)).
  { assert (Hi : (0 < inject_Z (leverage p))%Q).
    { change 0%Q with (inject_Z 0). rewrite <- Zlt_Qlt. lia. }
    cbn [fdiv of_int xq_float64 xdiv]. rewrite (Qeq_bool_false_pos _ Hi).
    apply np_round_fin. lia. }
  rewrite Hm in HM, HAM.
  split; [exact HL|]. split; [exact HU|]. split; [exact HN|]. split; [exact HM|].
  split.
  - rewrite HAM. apply map_ext. intros k. apply np_round_fin. lia.
  - rewrite HNo. apply map_ext. intros k. apply np_round_fin. lia.
Qed.

Lemma level_cell (i : nat) :
  (i < Z.to_nat (levels p))%nat -> nth i (Level df) 0 = Z.of_nat i + 1.
Proof using Hv Hrun.
  intros Hi. destruct other_columns as (-> & _). rewrite arange_nth by lia. lia.
Qed.

Lemma level_length : length (Level df) = Z.to_nat (levels p).
Proof using Hv Hrun.
  destruct other_columns as (-> & _). rewrite arange_length. f_equal. lia.
Qed.

Lemma by_level_cell (f : Z -> xq) (i : nat) :
  (i < Z.to_nat (levels p))%nat ->
  cell (map f (Level df)) i = f (Z.of_nat i + 1).
Proof using Hv Hrun.
  intros Hi. unfold cell.
  rewrite (nth_indep _ (Fin 0) (f 0)) by (rewrite length_map, level_length; exact Hi).
  rewrite (map_nth f), level_cell by exact Hi. reflexivity.
Qed.

Lemma unrealised_cell (i : nat) :
  (i < Z.to_nat (levels p))%nat -> (0 < priceq p i)%Q ->
  cell (Unrealised df) i
  = Fin (roundq ((priceq p i + - start_price p) * accq p i) 2).
Proof using Hv Hrun.
  intros Hi Hp. destruct other_columns as (_ & -> & _).
  pose proof (price_length p Hv df gap Hrun) as Lp.
  destruct (columns p Hv df gap Hrun) as (_ & _ & _ & _ & HA & _).
  pose proof (qty_length p Hv df gap Hrun) as Lq.
  unfold cell. rewrite zip_with_arr_nth by (rewrite ?HA, ?cumsum_length; lia).
  fold (cell (Price df) i). fold (cell (Acc_Qty df) i).
  rewrite (price_cell p Hv df gap Hrun i Hi), (acc_cell p Hv df gap Hrun i Hi Hp).
  apply np_round_fin. lia.
Qed.

End MoreColumns.

Lemma accq_multiple (p : GridParameters) (i : nat) :
  valid p -> (0 < priceq p i)%Q ->
  exists k : Z, Z.of_nat i + 1 <= k /\ (accq p i == inject_Z (10 * k))%Q.
Proof.
  intros Hv. induction i as [|i IH]; intros Hp.
  - exists (Z.max 1 (Qfloor (usdt_slice p / priceq p 0 / inject_Z 10))).
    split; [lia|]. cbn [accq]. apply lotq_multiple; [apply (valid_usdt_pos p Hv)|exact Hp].
  - destruct (IH (priceq_pos_before p Hv (S i) i ltac:(lia) Hp)) as (k & Hk & Hacc).
    exists (k + Z.max 1 (Qfloor (usdt_slice p / priceq p (S i) / inject_Z 10))).
    split; [lia|]. cbn [accq]. rewrite Hacc. unfold qtyq.
    rewrite (lotq_multiple _ _ (valid_usdt_pos p Hv) Hp), <- inject_Z_plus.
    apply (proj2 (inject_Z_injective _ _)). lia.
Qed.

Lemma drawq_step (p : GridParameters) (i : nat) :
  valid p -> (0 < priceq p (S i))%Q -> (drawq p i <= drawq p (S i))%Q.
Proof.
  intros Hv Hp. simpl.
  pose proof (priceq_pos_before p Hv (S i) i ltac:(lia) Hp) as Hpi.
  pose proof (accq_pos p Hv i Hpi).
  pose proof (priceq_antitone p Hv i (S i) ltac:(lia)). nra.
Qed.

(** The running drawdown is the cost of the position less its value at
    the current price. *)
Lemma drawq_cost (p : GridParameters) (i : nat) :
  (drawq p i == costq p i - priceq p i * accq p i)%Q.
Proof.
  induction i as [|i IH]; simpl.
  - change (inject_Z 0) with 0%Q. ring.
  - rewrite IH. ring.
Qed.

Lemma position_cost_costq (p : GridParameters) (df : DataFrame xq) (gap : xq) (i : nat) :
  valid p -> compute p = Ok (df, gap) ->
  (i < Z.to_nat (levels p))%nat -> (0 < priceq p i)%Q ->
  position_cost df i = costq p i.
Proof.
  intros Hv Hrun. induction i as [|i IH]; intros Hi Hp.
  - simpl. now rewrite (qty_cell p Hv df gap Hrun 0 Hi Hp), (price_cell p Hv df gap Hrun 0 Hi).
  - cbn [position_cost costq].
    rewrite IH by first [lia | apply (priceq_pos_before p Hv (S i)); [lia|exact Hp]].
    now rewrite (qty_cell p Hv df gap Hrun (S i) Hi Hp), (price_cell p Hv df gap Hrun (S i) Hi).
Qed.

(** * Further properties of the exact table *)















Lemma Qle_bool_false (x y : Q) : (y < x)%Q -> Qle_bool x y = false.
Proof.
  intros Hlt. destruct (Qle_bool x y) eqn:E; [|reflexivity].
  apply Qle_bool_iff in E. lra.
Qed.

Lemma Qle_bool_true (x y : Q) : (x <= y)%Q -> Qle_bool x y = true.
Proof. apply Qle_bool_iff. Qed.

(** The colour of a finite cell, by the sign of its value. *)
Lemma style_pos_neg_fin (u : Q) :
  ((u < 0)%Q -> style_pos_neg (Fin u) = "color:#e63946;"%string) /\
  ((0 < u)%Q -> style_pos_neg (Fin u) = "color:#2a9d8f;"%string) /\
  ((u == 0)%Q -> style_pos_neg (Fin u) = ""%string).
Proof.
  unfold style_pos_neg, fltb, xq_lt. cbn [of_int xq_float64 xltb].
  change (inject_Z 0) with 0%Q. split; [|split]; intros Hu.
  - now rewrite (Qle_bool_false 0 u Hu).
  - rewrite (Qle_bool_true 0 u) by lra. now rewrite (Qle_bool_false u 0 Hu).
  - rewrite (Qle_bool_true 0 u), (Qle_bool_true u 0) by lra. reflexivity.
Qed.

Lemma style_drawdown_fin (u : Q) :
  ((u < 0)%Q -> style_drawdown (Fin u) = "background-color:#ffecec; color:#e63946;"%string) /\
  ((0 <= u)%Q -> style_drawdown (Fin u) = ""%string).
Proof.
  unfold style_drawdown, fltb, xq_lt. cbn [of_int xq_float64 xltb].
  change (inject_Z 0) with 0%Q. split; intros Hu.
  - now rewrite (Qle_bool_false 0 u Hu).
  - now rewrite (Qle_bool_true 0 u Hu).
Qed.

Lemma drawdown_cell_0 (p : GridParameters) (df : DataFrame xq) (gap : xq) :
  valid p -> compute p = Ok (df, gap) ->
  cell (Drawdown df) 0 = Fin (- roundq (inject_Z 0) 2).
Proof.
  intros Hv Hrun. pose proof Hv as (_ & Hl & _).
  destruct (columns p Hv df gap Hrun) as (_ & _ & _ & _ & _ & _ & HD).
  pose proof (price_length p Hv df gap Hrun) as Lp.
  destruct (draw_loop_spec (Price df) (Acc_Qty df) (levels p) ltac:(lia) Lp)
    as (Ld & H0 & _).
  unfold cell. rewrite HD.
  set (g := fun d : xq => fneg (np_round d 2)).
  rewrite (nth_indep _ (Fin 0) (g (Fin 0))) by (rewrite length_map; lia).
  rewrite (map_nth g). change (Fin 0) with (@of_int xq _ 0). rewrite H0.
  unfold g. change (@of_int xq _ 0) with (Fin (inject_Z 0)).
  now rewrite np_round_fin by lia.
Qed.

(** * Profit and loss, margins *)









(** * The page around the calculation *)

Section Page.
Context {F : Type} `{Float64 F}.

(** X22.  The page calls [build_grid] only behind its guard: whenever a
    run shows a calculation, the button was pressed, [px_top <= px_bottom]
    was false, and the result is that of [build_grid] on the inputs with
    px_bottom as the minimum and px_top as the maximum. *)
Theorem calculation_only_behind_guard (w : Inputs F) (clicked : bool)
    (result : py (DataFrame F * F)) :
  calculate w clicked = Calculated result ->
  clicked = true /\
  fleb (px_top w) (px_bottom w) = false /\
  result = build_grid (px_bottom w) (px_top w) (spot w) (n_levels w) (slice_val w)
                      (n_leverage w) (n_price_dp w).
Proof.
  unfold calculate. destruct (fleb (px_top w) (px_bottom w)); [discriminate|].
  destruct clicked; [|discriminate]. intros Hc. injection Hc as <-. auto.
Qed.

Lemma zebra_row (df : DataFrame F) (i : nat) :
  (i < rows df)%nat ->
  nth i (zebra df) []
  = repeat (if Nat.even i then "background-color:#ffffff;"%string
            else "background-color:#f7f7f7;"%string) 11.
Proof.
  intros Hi. unfold zebra.
  set (f := fun i0 : nat => repeat _ 11).
  rewrite (nth_indep _ [] (f 0%nat)) by (rewrite length_map, length_seq; exact Hi).
  rewrite (map_nth f), seq_nth by exact Hi. unfold f. cbn [Nat.add].
  destruct (Nat.even i) eqn:E.
  - apply Nat.even_spec in E. destruct E as [k ->].
    replace (Z.of_nat (2 * k) mod 2) with 0; [reflexivity|].
    rewrite Nat2Z.inj_mul, Z.mul_comm, Z.mod_mul by lia. reflexivity.
  - assert (Ho : Nat.odd i = true) by (rewrite <- Nat.negb_even, E; reflexivity).
    apply Nat.odd_spec in Ho. destruct Ho as [k ->].
    replace (Z.of_nat (2 * k + 1) mod 2) with 1; [reflexivity|].
    rewrite Nat2Z.inj_add, Nat2Z.inj_mul, Z.add_comm, Z.mul_comm, Z.mod_add by lia.
    reflexivity.
Qed.

(** X23.  The stripes fit the table: one row of eleven equal styles per
    table row, white for the rows at even positions (from 0) and grey for
    the others, so neighbouring rows never share a background. *)
Theorem zebra_stripes (df : DataFrame F) :
  length (zebra df) = rows df /\
  forall i, (i < rows df)%nat ->
    nth i (zebra df) []
    = repeat ("background-color:" ++ (if Nat.even i then ROW_EVEN else ROW_ODD) ++ ";")%string
             11 /\
    ((S i < rows df)%nat -> nth (S i) (zebra df) [] <> nth i (zebra df) []).
Proof.
  split.
  - unfold zebra. now rewrite length_map, length_seq.
  - intros i Hi. split.
    + rewrite (zebra_row df i Hi). now destruct (Nat.even i).
    + intros HS. rewrite (zebra_row df i Hi), (zebra_row df (S i) HS).
      rewrite Nat.even_succ, <- Nat.negb_even.
      destruct (Nat.even i); cbn; discriminate.
Qed.

End Page.

Lemma calculation_only_behind_guard_witness :
  calculate plain_inputs true
  = Calculated (build_grid (Fin 1) (Fin 2) (Fin 1.5) 3 (Fin 100) 10 2) /\
  true = true /\
  fleb (px_top plain_inputs) (px_bottom plain_inputs) = false /\
  build_grid (Fin 1) (Fin 2) (Fin 1.5) 3 (Fin 100) 10 2
  = build_grid (px_bottom plain_inputs) (px_top plain_inputs) (spot plain_inputs)
               (n_levels plain_inputs) (slice_val plain_inputs)
               (n_leverage plain_inputs) (n_price_dp plain_inputs).
Proof.
  assert (Hc : calculate plain_inputs true
               = Calculated (build_grid (Fin 1) (Fin 2) (Fin 1.5) 3 (Fin 100) 10 2))
    by reflexivity.
  split; [exact Hc|].
  exact (calculation_only_behind_guard plain_inputs true _ Hc).
Defined.


